(** * The horror-game scene: joystick mapper and first-person movement integrator

    A shallow embedding of the two pieces of logic of the repository,
    [VirtualJoystick] (the joystick input mapper) and [Player]'s per-frame
    callback (the movement integrator), as they are written in the two source
    versions of the component, [src/unnamed/part_000] and
    [src/src/components/HorrorGame.tsx].

    Numbers.  A JavaScript [number] is modelled as a real number: addition,
    multiplication, division by a nonzero number and [Math.sqrt] of a
    non-negative number are the exact operations, so rounding and overflow of
    binary64 are abstracted away.  The values binary64 adds to the reals
    (NaN, the infinities) are the subject of module [Finite], where every
    operation that can produce one of them on finite operands (a division by
    zero, the square root of a negative number) returns [None]. *)

From Stdlib Require Import Reals Lra Psatz RNsatz List Bool Permutation.
Import ListNotations.

Local Open Scope R_scope.

(** ** JavaScript operators on numbers *)

(** [a || b] on numbers: [a] unless it is falsy, that is zero. *)
Definition js_or (a b : R) : R := if Req_dec_T a 0 then b else a.

(** [a > b]. *)
Definition js_gt (a b : R) : bool := if Rgt_dec a b then true else false.

(** [{ x: number; y: number }], the type of [moveDirection] and of the knob
    [position]. *)
Record XY : Type := mkXY { x : R; y : R }.

(** ** The part of three.js the component calls

    three.js is a dependency of the repository: its code is not in the source
    tree.  The definitions below follow the methods of three.js that [Player]
    calls, with the mutation of [this] turned into a returned value. *)
Module THREE.

Module Quaternion.
Record t : Type := mk { x : R; y : R; z : R; w : R }.

    (** Squared norm; a camera orientation is a quaternion of norm one. *)
Definition lengthSq (q : t) : R := x q * x q + y q * y q + z q * z q + w q * w q.
End Quaternion.

Module Euler.
    (** [new THREE.Euler(x, y, z)], in the default order XYZ. *)
Record t : Type := mk { x : R; y : R; z : R }.
End Euler.

Module Vector3.
Record t : Type := mk { x : R; y : R; z : R }.

    (** [v.y = s]. *)
Definition setY (v : t) (s : R) : t := mk (x v) s (z v).

    (** Modelled from the spec: [Vector3.multiplyScalar] of three.js, which is
        not in the source tree; each component is multiplied by [s]. *)
Definition multiplyScalar (v : t) (s : R) : t := mk (x v * s) (y v * s) (z v * s).

    (** Modelled from the spec: [Vector3.divideScalar] of three.js, which is
        not in the source tree; it is [multiplyScalar(1 / s)]. *)
Definition divideScalar (v : t) (s : R) : t := multiplyScalar v (1 / s).

    (** Modelled from the spec: [Vector3.length] of three.js, which is not in
        the source tree; the Euclidean length. *)
Definition length (v : t) : R := sqrt (x v * x v + y v * y v + z v * z v).

    (** Modelled from the spec: [Vector3.normalize] of three.js, which is not
        in the source tree; the spec's "normalized".  three.js divides by
        [this.length() || 1], so the zero vector is left as it is. *)
Definition normalize (v : t) : t := divideScalar v (js_or (length v) 1).

    (** Modelled from the spec: [Vector3.add] of three.js, which is not in the
        source tree; componentwise sum. *)
Definition add (v u : t) : t := mk (x v + x u) (y v + y u) (z v + z u).

    (** Modelled from the spec: [Vector3.addScaledVector] of three.js, which is
        not in the source tree; [this.x += v.x * s] and likewise for y and z:
        the spec's "old position + forward·(...)". *)
Definition addScaledVector (p v : t) (s : R) : t :=
      mk (x p + x v * s) (y p + y v * s) (z p + z v * s).

    (** Modelled from the spec: [Vector3.applyQuaternion] of three.js, which is
        not in the source tree; the spec's "camera quaternion applied to".
        The vector is rotated by the quaternion, which three.js assumes to
        have unit length: [t = 2 * cross(q.xyz, v)], then
        [v + q.w * t + cross(q.xyz, t)]. *)
Definition applyQuaternion (v : t) (q : Quaternion.t) : t :=
      let vx := x v in let vy := y v in let vz := z v in
      let qx := Quaternion.x q in let qy := Quaternion.y q in
      let qz := Quaternion.z q in let qw := Quaternion.w q in
      let tx := 2 * (qy * vz - qz * vy) in
      let ty := 2 * (qz * vx - qx * vz) in
      let tz := 2 * (qx * vy - qy * vx) in
      mk (vx + qw * tx + qy * tz - qz * ty)
         (vy + qw * ty + qz * tx - qx * tz)
         (vz + qw * tz + qx * ty - qy * tx).

    (** The older body of [applyQuaternion] in three.js: the product
        [q * v * conjugate(q)] written out. *)
Definition applyQuaternion_product (v : t) (q : Quaternion.t) : t :=
      let qx := Quaternion.x q in let qy := Quaternion.y q in
      let qz := Quaternion.z q in let qw := Quaternion.w q in
      let ix := qw * x v + qy * z v - qz * y v in
      let iy := qw * y v + qz * x v - qx * z v in
      let iz := qw * z v + qx * y v - qy * x v in
      let iw := - qx * x v - qy * y v - qz * z v in
      mk (ix * qw + iw * - qx + iy * - qz - iz * - qy)
         (iy * qw + iw * - qy + iz * - qx - ix * - qz)
         (iz * qw + iw * - qz + ix * - qy - iy * - qx).
End Vector3.

  (** Modelled from the spec: [Quaternion.setFromEuler] of three.js for the
      order XYZ, which is not in the source tree.  Assigning [camera.rotation]
      updates [camera.quaternion] through it. *)
Definition setFromEuler (e : Euler.t) : Quaternion.t :=
    let c1 := cos (Euler.x e / 2) in let c2 := cos (Euler.y e / 2) in
    let c3 := cos (Euler.z e / 2) in
    let s1 := sin (Euler.x e / 2) in let s2 := sin (Euler.y e / 2) in
    let s3 := sin (Euler.z e / 2) in
    Quaternion.mk (s1 * c2 * c3 + c1 * s2 * s3)
                  (c1 * s2 * c3 - s1 * c2 * s3)
                  (c1 * c2 * s3 + s1 * s2 * c3)
                  (c1 * c2 * c3 - s1 * s2 * s3).

  (** What [Player] reads and writes of the camera. *)
Record Camera : Type := mkCamera { position : Vector3.t; quaternion : Quaternion.t }.

  (** What [Player] writes of the spot light: its position and the position
      of its target. *)
Record SpotLight : Type :=
    mkSpotLight { light_position : Vector3.t; target_position : Vector3.t }.

End THREE.

(** ** The scene state the frame callback works on *)

(** [playerPosition] is [positionRef.current] in [part_000] and the [position]
    prop ([playerPosition.current] of [Scene]) in [HorrorGame.tsx];
    [playerRotation] exists in [HorrorGame.tsx] only; [spotLight] is
    [spotLightRef.current], [None] for [null]. *)
Record World : Type := mkWorld {
  playerPosition : THREE.Vector3.t;
  playerRotation : THREE.Euler.t;
  camera : THREE.Camera;
  spotLight : option THREE.SpotLight
}.

(** The rectangle [getBoundingClientRect()] returns for the joystick. *)
Record DOMRect : Type := mkDOMRect { left : R; top : R; width : R; height : R }.

(** The state of [VirtualJoystick]: its two [useState] cells. *)
Record Joystick : Type := mkJoystick { isDragging : bool; position : XY }.

(** A handler returns the next state and the calls of [onMove] it made, in
    order. *)
Definition Handled : Type := (Joystick * list XY)%type.

(** ** [src/unnamed/part_000] *)
Module Part000.

Definition useFrame (moveDirection : XY) (delta : R) (w : World) : World :=
    let moveSpeed := 3 * delta in
    let forward := THREE.Vector3.mk 0 0 (-1) in
    let forward := THREE.Vector3.applyQuaternion forward (THREE.quaternion (camera w)) in
    let forward := THREE.Vector3.setY forward 0 in
    let forward := THREE.Vector3.normalize forward in
    let right := THREE.Vector3.mk 1 0 0 in
    let right := THREE.Vector3.applyQuaternion right (THREE.quaternion (camera w)) in
    let right := THREE.Vector3.setY right 0 in
    let right := THREE.Vector3.normalize right in
    let positionRef :=
      THREE.Vector3.addScaledVector (playerPosition w) forward (y moveDirection * moveSpeed) in
    let positionRef :=
      THREE.Vector3.addScaledVector positionRef right (x moveDirection * moveSpeed) in
    let camera' := THREE.mkCamera positionRef (THREE.quaternion (camera w)) in
    let spotLight' :=
      match spotLight w with
      | Some _ =>
          let target :=
            THREE.Vector3.add (THREE.position camera')
                              (THREE.Vector3.multiplyScalar forward 5) in
          Some (THREE.mkSpotLight (THREE.position camera') target)
      | None => None
      end in
    mkWorld positionRef (playerRotation w) camera' spotLight'.

Definition updatePosition (joystickRef : option DOMRect) (clientX clientY : R)
      (s : Joystick) : Handled :=
    match joystickRef with
    | None => (s, [])
    | Some rect =>
        let centerX := left rect + width rect / 2 in
        let centerY := top rect + height rect / 2 in
        let dx := clientX - centerX in
        let dy := clientY - centerY in
        let distance := sqrt (dx * dx + dy * dy) in
        let maxDistance := 40 in
        let '(dx, dy) :=
          if js_gt distance maxDistance
          then ((dx / distance) * maxDistance, (dy / distance) * maxDistance)
          else (dx, dy) in
        (mkJoystick (isDragging s) (mkXY dx dy),
         [mkXY (dx / maxDistance) (- dy / maxDistance)])
    end.

Definition handleStart (joystickRef : option DOMRect) (clientX clientY : R)
      (s : Joystick) : Handled :=
    updatePosition joystickRef clientX clientY (mkJoystick true (position s)).

Definition handleMove (joystickRef : option DOMRect) (clientX clientY : R)
      (s : Joystick) : Handled :=
    if isDragging s then updatePosition joystickRef clientX clientY s else (s, []).

Definition handleEnd (s : Joystick) : Handled :=
    (mkJoystick false (mkXY 0 0), [mkXY 0 0]).

End Part000.

(** ** [src/src/components/HorrorGame.tsx] *)
Module HorrorGameTsx.

Definition useFrame (moveDirection : XY) (delta : R) (w : World) : World :=
    let moveSpeed := 3 * delta in
    let forward := THREE.Vector3.mk 0 0 (-1) in
    let forward := THREE.Vector3.applyQuaternion forward (THREE.quaternion (camera w)) in
    let forward := THREE.Vector3.setY forward 0 in
    let forward := THREE.Vector3.normalize forward in
    let right := THREE.Vector3.mk 1 0 0 in
    let right := THREE.Vector3.applyQuaternion right (THREE.quaternion (camera w)) in
    let right := THREE.Vector3.setY right 0 in
    let right := THREE.Vector3.normalize right in
    let position :=
      THREE.Vector3.addScaledVector (playerPosition w) forward (y moveDirection * moveSpeed) in
    let position :=
      THREE.Vector3.addScaledVector position right (x moveDirection * moveSpeed) in
    let camera' := THREE.mkCamera position (THREE.setFromEuler (playerRotation w)) in
    let spotLight' :=
      match spotLight w with
      | Some _ =>
          Some (THREE.mkSpotLight
                  (THREE.position camera')
                  (THREE.Vector3.add (THREE.position camera')
                                     (THREE.Vector3.multiplyScalar forward 5)))
      | None => None
      end in
    mkWorld position (playerRotation w) camera' spotLight'.

Definition updatePosition (joystickRef : option DOMRect) (clientX clientY : R)
      (s : Joystick) : Handled :=
    match joystickRef with
    | None => (s, [])
    | Some rect =>
        let centerX := left rect + width rect / 2 in
        let centerY := top rect + height rect / 2 in
        let dx := clientX - centerX in
        let dy := clientY - centerY in
        let distance := sqrt (dx * dx + dy * dy) in
        let maxDistance := 40 in
        let '(dx, dy) :=
          if js_gt distance maxDistance
          then ((dx / distance) * maxDistance, (dy / distance) * maxDistance)
          else (dx, dy) in
        (mkJoystick (isDragging s) (mkXY dx dy),
         [mkXY (dx / maxDistance) (- dy / maxDistance)])
    end.

Definition handleStart (joystickRef : option DOMRect) (clientX clientY : R)
      (s : Joystick) : Handled :=
    updatePosition joystickRef clientX clientY (mkJoystick true (position s)).

Definition handleMove (joystickRef : option DOMRect) (clientX clientY : R)
      (s : Joystick) : Handled :=
    if isDragging s then updatePosition joystickRef clientX clientY s else (s, []).

Definition handleEnd (s : Joystick) : Handled :=
    (mkJoystick false (mkXY 0 0), [mkXY 0 0]).

End HorrorGameTsx.

(** ** Either source version *)

Inductive SourceFile : Type := part_000 | HorrorGame_tsx.

Definition useFrame (f : SourceFile) : XY -> R -> World -> World :=
  match f with
  | part_000 => Part000.useFrame
  | HorrorGame_tsx => HorrorGameTsx.useFrame
  end.

Definition updatePosition (f : SourceFile) : option DOMRect -> R -> R -> Joystick -> Handled :=
  match f with
  | part_000 => Part000.updatePosition
  | HorrorGame_tsx => HorrorGameTsx.updatePosition
  end.

Definition handleStart (f : SourceFile) : option DOMRect -> R -> R -> Joystick -> Handled :=
  match f with
  | part_000 => Part000.handleStart
  | HorrorGame_tsx => HorrorGameTsx.handleStart
  end.

Definition handleMove (f : SourceFile) : option DOMRect -> R -> R -> Joystick -> Handled :=
  match f with
  | part_000 => Part000.handleMove
  | HorrorGame_tsx => HorrorGameTsx.handleMove
  end.

Definition handleEnd (f : SourceFile) : Joystick -> Handled :=
  match f with
  | part_000 => Part000.handleEnd
  | HorrorGame_tsx => HorrorGameTsx.handleEnd
  end.

(** ** The event bindings of the joystick element

    The same seven bindings in both files.  A touch event carries the
    coordinates of [e.touches[0]], a mouse event its own. *)
Inductive Event : Type :=
  | onTouchStart (clientX clientY : R)
  | onTouchMove (clientX clientY : R)
  | onTouchEnd
  | onMouseDown (clientX clientY : R)
  | onMouseMove (clientX clientY : R)
  | onMouseUp
  | onMouseLeave.

Definition dispatch (f : SourceFile) (joystickRef : option DOMRect) (e : Event)
    (s : Joystick) : Handled :=
  match e with
  | onTouchStart cx cy => handleStart f joystickRef cx cy s
  | onTouchMove cx cy => handleMove f joystickRef cx cy s
  | onTouchEnd => handleEnd f s
  | onMouseDown cx cy => handleStart f joystickRef cx cy s
  | onMouseMove cx cy => handleMove f joystickRef cx cy s
  | onMouseUp => handleEnd f s
  | onMouseLeave => handleEnd f s
  end.

(** The three kinds of event the spec names. *)
Definition is_press (e : Event) : bool :=
  match e with onTouchStart _ _ | onMouseDown _ _ => true | _ => false end.

Definition is_move (e : Event) : bool :=
  match e with onTouchMove _ _ | onMouseMove _ _ => true | _ => false end.

Definition is_release (e : Event) : bool :=
  match e with onTouchEnd | onMouseUp | onMouseLeave => true | _ => false end.

(** [HorrorGame] holds the MoveVector: [onMove={(x, y) => setMoveDirection({ x, y })}].
    Each call of [onMove] replaces [moveDirection]. *)
Record HorrorGame : Type := mkHorrorGame {
  flashlightOn : bool;
  moveDirection : XY;
  joystick : Joystick
}.

Definition onMove (calls : list XY) (current : XY) : XY :=
  fold_left (fun _ c => c) calls current.

(** One event of the joystick element, handled to completion: the handler
    runs on the state of the latest render and the state cells are updated
    before the next event. *)
Definition handleEvent (f : SourceFile) (joystickRef : option DOMRect) (e : Event)
    (g : HorrorGame) : HorrorGame :=
  let '(s, calls) := dispatch f joystickRef e (joystick g) in
  mkHorrorGame (flashlightOn g) (onMove calls (moveDirection g)) s.

(** ** Consecutive frames

    Between two frames the environment (look controls, or nothing) may set
    the camera orientation, and the joystick may have replaced
    [moveDirection]; a frame is given by the three values the callback
    reads. *)
Record Frame : Type := mkFrame {
  frame_moveDirection : XY;
  frame_delta : R;
  frame_quaternion : THREE.Quaternion.t
}.

Definition setQuaternion (q : THREE.Quaternion.t) (w : World) : World :=
  mkWorld (playerPosition w) (playerRotation w)
          (THREE.mkCamera (THREE.position (camera w)) q) (spotLight w).

Fixpoint frames (f : SourceFile) (l : list Frame) (w : World) : World :=
  match l with
  | [] => w
  | fr :: l' =>
      frames f l'
        (useFrame f (frame_moveDirection fr) (frame_delta fr)
                  (setQuaternion (frame_quaternion fr) w))
  end.

(** The scene as it is mounted: [new THREE.Vector3(0, 1.6, 10)] for the player
    position, [new THREE.Euler(0, 0, 0)] for the rotation. *)
Definition initialWorld (cam : THREE.Camera) (light : option THREE.SpotLight) : World :=
  mkWorld (THREE.Vector3.mk 0 1.6 10) (THREE.Euler.mk 0 0 0) cam light.

(** ** What the spec calls forward and right

    The look direction and the camera's x axis, projected onto the horizontal
    plane and normalized. *)
Definition lookDirection (q : THREE.Quaternion.t) : THREE.Vector3.t :=
  THREE.Vector3.applyQuaternion (THREE.Vector3.mk 0 0 (-1)) q.

Definition xAxis (q : THREE.Quaternion.t) : THREE.Vector3.t :=
  THREE.Vector3.applyQuaternion (THREE.Vector3.mk 1 0 0) q.

(** The camera's up axis; the frame callback does not compute it. *)
Definition yAxis (q : THREE.Quaternion.t) : THREE.Vector3.t :=
  THREE.Vector3.applyQuaternion (THREE.Vector3.mk 0 1 0) q.

(** Projection onto the horizontal plane: [v.y = 0]. *)
Definition horizontal (v : THREE.Vector3.t) : THREE.Vector3.t := THREE.Vector3.setY v 0.

Definition forward (q : THREE.Quaternion.t) : THREE.Vector3.t :=
  THREE.Vector3.normalize (horizontal (lookDirection q)).

Definition right (q : THREE.Quaternion.t) : THREE.Vector3.t :=
  THREE.Vector3.normalize (horizontal (xAxis q)).

(** A camera orientation: a quaternion of norm one. *)
Definition orientation (q : THREE.Quaternion.t) : Prop := THREE.Quaternion.lengthSq q = 1.

(** What one step adds to the player position. *)
Definition moved (w w' : World) : THREE.Vector3.t :=
  THREE.Vector3.mk
    (THREE.Vector3.x (playerPosition w') - THREE.Vector3.x (playerPosition w))
    (THREE.Vector3.y (playerPosition w') - THREE.Vector3.y (playerPosition w))
    (THREE.Vector3.z (playerPosition w') - THREE.Vector3.z (playerPosition w)).

(** The fixed speed of the spec: the [3] of [const moveSpeed = 3 * delta]. *)
Definition speed : R := 3.

(** The MoveVector of the spec's data model: both components in [-1, 1]. *)
Definition MoveVector (m : XY) : Prop := -1 <= x m <= 1 /\ -1 <= y m <= 1.

(** Euclidean magnitude of a MoveVector. *)
Definition magnitude (m : XY) : R := sqrt (x m * x m + y m * y m).

(** Rotation of a vector by a quarter turn about the vertical axis, clockwise
    when seen from above (the angle [- PI / 2] about the y axis): [-z] is sent
    to [x] and [x] to [z]. *)
Definition quarterTurn (v : THREE.Vector3.t) : THREE.Vector3.t :=
  THREE.Vector3.mk (- THREE.Vector3.z v) (THREE.Vector3.y v) (THREE.Vector3.x v).

(** The quarter turn in the other direction. *)
Definition quarterTurn' (v : THREE.Vector3.t) : THREE.Vector3.t :=
  THREE.Vector3.mk (THREE.Vector3.z v) (THREE.Vector3.y v) (- THREE.Vector3.x v).

(** The raw displacement of the pointer from the centre of the control. *)
Definition displacement (rect : DOMRect) (clientX clientY : R) : XY :=
  mkXY (clientX - (left rect + width rect / 2)) (clientY - (top rect + height rect / 2)).

(** ** The same code with the non-finite results made explicit

    In binary64 a division by zero gives an infinity or NaN and the square
    root of a negative number gives NaN.  Here such an operation returns
    [None], and [None] propagates, so a result [Some v] says that no
    operation of the run left the finite numbers. *)
Module Finite.

Definition bind {A B : Type} (c : option A) (k : A -> option B) : option B :=
  match c with
  | Some a => k a
  | None => None
  end.

#[local] Notation "v <- c ;; k" := (bind c (fun v => k))
  (at level 61, c at next level, right associativity).

(** [a / b]. *)
Definition div (a b : R) : option R :=
  if Req_dec_T b 0 then None else Some (a / b).

(** [Math.sqrt(a)]. *)
Definition sqrt (a : R) : option R :=
  if Rlt_dec a 0 then None else Some (R_sqrt.sqrt a).

(** [Vector3.length], [Vector3.divideScalar] and [Vector3.normalize] of module
    [THREE], operation by operation. *)
Definition length (v : THREE.Vector3.t) : option R :=
  sqrt (THREE.Vector3.x v * THREE.Vector3.x v + THREE.Vector3.y v * THREE.Vector3.y v
        + THREE.Vector3.z v * THREE.Vector3.z v).

Definition divideScalar (v : THREE.Vector3.t) (s : R) : option THREE.Vector3.t :=
  r <- div 1 s ;;
  Some (THREE.Vector3.multiplyScalar v r).

Definition normalize (v : THREE.Vector3.t) : option THREE.Vector3.t :=
  len <- length v ;;
  divideScalar v (js_or len 1).

(** The body both files share up to the two position updates: the callback
    of [useFrame] up to the end of line 30 of [part_000], line 32 of
    [HorrorGame.tsx]. *)
Definition movement (moveDirection : XY) (delta : R) (w : World)
  : option (THREE.Vector3.t * THREE.Vector3.t) :=
  let moveSpeed := 3 * delta in
  let forward := THREE.Vector3.mk 0 0 (-1) in
  let forward := THREE.Vector3.applyQuaternion forward (THREE.quaternion (camera w)) in
  let forward := THREE.Vector3.setY forward 0 in
  forward <- normalize forward ;;
  let right := THREE.Vector3.mk 1 0 0 in
  let right := THREE.Vector3.applyQuaternion right (THREE.quaternion (camera w)) in
  let right := THREE.Vector3.setY right 0 in
  right <- normalize right ;;
  let position :=
    THREE.Vector3.addScaledVector (playerPosition w) forward (y moveDirection * moveSpeed) in
  let position :=
    THREE.Vector3.addScaledVector position right (x moveDirection * moveSpeed) in
  Some (position, forward).

(** The rest of the callback has no division and no square root. *)
Definition useFrame (f : SourceFile) (moveDirection : XY) (delta : R) (w : World)
  : option World :=
  pf <- movement moveDirection delta w ;;
  let '(position, forward) := pf in
  let quaternion' :=
    match f with
    | part_000 => THREE.quaternion (camera w)
    | HorrorGame_tsx => THREE.setFromEuler (playerRotation w)
    end in
  let camera' := THREE.mkCamera position quaternion' in
  let spotLight' :=
    match spotLight w with
    | Some _ =>
        Some (THREE.mkSpotLight
                (THREE.position camera')
                (THREE.Vector3.add (THREE.position camera')
                                   (THREE.Vector3.multiplyScalar forward 5)))
    | None => None
    end in
  Some (mkWorld position (playerRotation w) camera' spotLight').

(** [updatePosition], the same text in both files. *)
Definition updatePosition (joystickRef : option DOMRect) (clientX clientY : R)
    (s : Joystick) : option Handled :=
  match joystickRef with
  | None => Some (s, [])
  | Some rect =>
      halfWidth <- div (width rect) 2 ;;
      let centerX := left rect + halfWidth in
      halfHeight <- div (height rect) 2 ;;
      let centerY := top rect + halfHeight in
      let dx := clientX - centerX in
      let dy := clientY - centerY in
      distance <- sqrt (dx * dx + dy * dy) ;;
      let maxDistance := 40 in
      clamped <-
        (if js_gt distance maxDistance
         then
           ux <- div dx distance ;;
           uy <- div dy distance ;;
           Some (ux * maxDistance, uy * maxDistance)
         else Some (dx, dy)) ;;
      let '(dx, dy) := clamped in
      mx <- div dx maxDistance ;;
      my <- div (- dy) maxDistance ;;
      Some (mkJoystick (isDragging s) (mkXY dx dy), [mkXY mx my])
  end.

End Finite.

(** ** Sample orientations *)

(** The camera as it is created: looking along -z. *)
Definition level : THREE.Quaternion.t := THREE.Quaternion.mk 0 0 0 1.

(** A quarter turn to the left about the vertical axis would need a square
    root; this is the turn about the vertical axis whose half angle has
    cosine 4/5 and sine 3/5. *)
Definition turned : THREE.Quaternion.t := THREE.Quaternion.mk 0 (3/5) 0 (4/5).

(** A camera that is both pitched and rolled: its x axis is (3/5, 4/5, 0) and
    its look direction (-16/25, 12/25, -3/5). *)
Definition rolled : THREE.Quaternion.t := THREE.Quaternion.mk (2/5) (1/5) (2/5) (4/5).

(** ** Frames with nothing in between

    The callback run once per pair of a MoveVector and an elapsed time, the
    camera being touched by nothing but the callback itself. *)
Fixpoint steps (f : SourceFile) (l : list (XY * R)) (w : World) : World :=
  match l with
  | [] => w
  | (m, dt) :: l' => steps f l' (useFrame f m dt w)
  end.

(** ** The component from its mounting on *)

(** [useState(true)], [useState({ x: 0, y: 0 })] in [HorrorGame] and
    [useState(false)], [useState({ x: 0, y: 0 })] in [VirtualJoystick]. *)
Definition initialGame : HorrorGame :=
  mkHorrorGame true (mkXY 0 0) (mkJoystick false (mkXY 0 0)).

(** A sequence of events of the joystick element, each with the value
    [joystickRef.current] has when it is handled. *)
Fixpoint handleEvents (f : SourceFile) (l : list (option DOMRect * Event))
    (g : HorrorGame) : HorrorGame :=
  match l with
  | [] => g
  | (joystickRef, e) :: l' => handleEvents f l' (handleEvent f joystickRef e g)
  end.

(** The MoveVector [HorrorGame] holds is the knob position divided by the
    radius, the vertical axis inverted; the knob is within the radius; and
    an idle joystick has its knob at the centre. *)
Definition consistent (g : HorrorGame) : Prop :=
  moveDirection g
  = mkXY (x (position (joystick g)) / 40) (- y (position (joystick g)) / 40) /\
  magnitude (position (joystick g)) <= 40 /\
  (isDragging (joystick g) = false -> position (joystick g) = mkXY 0 0).

(** ** [handleTouchMove] of [HorrorGame.tsx]

    The handler of [onTouchMove] on the canvas; [part_000] has none.  A touch
    is the pair of its [clientX] and [clientY]; the result is the next
    [mouseMovement]. *)
Definition handleTouchMove (touches : list XY) (innerWidth innerHeight : R)
    (mouseMovement : XY) : XY :=
  match touches with
  | [touch] =>
      let deltaX := x touch - innerWidth / 2 in
      let deltaY := y touch - innerHeight / 2 in
      mkXY (deltaX * 0.002) (deltaY * 0.002)
  | _ => mouseMovement
  end.

(** ** [Room]: the ring of pillars

    [[...Array(8)].map((_, i) => ...)], the same in both files: the position
    of the mesh of index [i]. *)
Definition pillar (i : nat) : THREE.Vector3.t :=
  let angle := (INR i / 8) * PI * 2 in
  let radius := 8 in
  THREE.Vector3.mk (cos angle * radius) 0.5 (sin angle * radius).

Definition pillars : list THREE.Vector3.t := map pillar (seq 0 8).

(** * Properties *)

(** ** Numbers and vectors *)

Lemma js_or_nonzero (a : R) : js_or a 1 <> 0.
Proof. unfold js_or. destruct (Req_dec_T a 0); lra. Qed.

Lemma js_or_of_nonzero (a b : R) : a <> 0 -> js_or a b = a.
Proof. unfold js_or. destruct (Req_dec_T a 0); intros; [contradiction | reflexivity]. Qed.

Lemma js_or_of_zero (b : R) : js_or 0 b = b.
Proof. unfold js_or. destruct (Req_dec_T 0 0); [reflexivity | contradiction]. Qed.

Lemma js_gt_true (a b : R) : js_gt a b = true <-> a > b.
Proof.
  unfold js_gt. destruct (Rgt_dec a b); split; intros; try easy.
Qed.

Lemma js_gt_false (a b : R) : js_gt a b = false <-> a <= b.
Proof.
  unfold js_gt. destruct (Rgt_dec a b); split; intros; try easy; lra.
Qed.

Lemma sum_squares_nonneg (a b : R) : 0 <= a * a + b * b.
Proof. nra. Qed.

Lemma sum_squares3_nonneg (a b c : R) : 0 <= a * a + b * b + c * c.
Proof. nra. Qed.

Lemma sqrt_of_square (a : R) : 0 <= a -> sqrt (a * a) = a.
Proof. intros; now apply sqrt_square. Qed.

Lemma sqrt_squared (a : R) : 0 <= a -> sqrt a * sqrt a = a.
Proof. intros; now apply sqrt_sqrt. Qed.

Lemma Vector3_eq (a b c a' b' c' : R) :
  a = a' -> b = b' -> c = c' -> THREE.Vector3.mk a b c = THREE.Vector3.mk a' b' c'.
Proof. intros; subst; reflexivity. Qed.

Lemma Vector3_eta (v : THREE.Vector3.t) :
  v = THREE.Vector3.mk (THREE.Vector3.x v) (THREE.Vector3.y v) (THREE.Vector3.z v).
Proof. destruct v; reflexivity. Qed.

Lemma XY_eq (a b a' b' : R) : a = a' -> b = b' -> mkXY a b = mkXY a' b'.
Proof. intros; subst; reflexivity. Qed.

Lemma length_nonneg (v : THREE.Vector3.t) : 0 <= THREE.Vector3.length v.
Proof. apply sqrt_pos. Qed.

Lemma length_zero_iff (v : THREE.Vector3.t) :
  THREE.Vector3.length v = 0 <->
  THREE.Vector3.x v = 0 /\ THREE.Vector3.y v = 0 /\ THREE.Vector3.z v = 0.
Proof.
  unfold THREE.Vector3.length. split.
  - intros H. apply sqrt_eq_0 in H; [| apply sum_squares3_nonneg].
    repeat split; nra.
  - intros (-> & -> & ->).
    replace (0 * 0 + 0 * 0 + 0 * 0) with 0 by ring. apply sqrt_0.
Qed.

(** [normalize] scales by the reciprocal of the length, or by one. *)
Lemma normalize_unfold (v : THREE.Vector3.t) :
  THREE.Vector3.normalize v =
  THREE.Vector3.multiplyScalar v (1 / js_or (THREE.Vector3.length v) 1).
Proof. reflexivity. Qed.

(** The zero vector is left as it is. *)
Lemma normalize_zero (v : THREE.Vector3.t) :
  THREE.Vector3.length v = 0 -> THREE.Vector3.normalize v = v.
Proof.
  intros H. rewrite normalize_unfold, H, js_or_of_zero.
  destruct v as [a b c]. unfold THREE.Vector3.multiplyScalar; simpl.
  apply Vector3_eq; field.
Qed.

(** Any other vector becomes a unit vector. *)
Lemma normalize_length (v : THREE.Vector3.t) :
  THREE.Vector3.length v <> 0 ->
  THREE.Vector3.length (THREE.Vector3.normalize v) = 1.
Proof.
  intros H. rewrite normalize_unfold, js_or_of_nonzero by assumption.
  destruct v as [a b c]. unfold THREE.Vector3.multiplyScalar, THREE.Vector3.length in *.
  simpl in *.
  set (n := a * a + b * b + c * c) in *.
  assert (Hn : 0 <= n) by apply sum_squares3_nonneg.
  replace (a * (1 / sqrt n) * (a * (1 / sqrt n)) + b * (1 / sqrt n) * (b * (1 / sqrt n))
           + c * (1 / sqrt n) * (c * (1 / sqrt n)))
    with (n / (sqrt n * sqrt n)) by (unfold n; field; assumption).
  rewrite sqrt_squared by assumption.
  replace (n / n) with 1.
  - apply sqrt_1.
  - field. intros E. apply H. rewrite E. apply sqrt_0.
Qed.

(** The two bodies three.js has had for [applyQuaternion] agree on every
    camera orientation. *)
Lemma applyQuaternion_product_eq (v : THREE.Vector3.t) (q : THREE.Quaternion.t) :
  THREE.Quaternion.lengthSq q = 1 ->
  THREE.Vector3.applyQuaternion v q = THREE.Vector3.applyQuaternion_product v q.
Proof.
  destruct v as [a b c], q as [qx qy qz qw].
  unfold THREE.Quaternion.lengthSq, THREE.Vector3.applyQuaternion,
    THREE.Vector3.applyQuaternion_product; simpl. intros H.
  apply Vector3_eq.
  - replace a with (a * (qx * qx + qy * qy + qz * qz + qw * qw)) at 1 by (rewrite H; ring). ring.
  - replace b with (b * (qx * qx + qy * qy + qz * qz + qw * qw)) at 1 by (rewrite H; ring). ring.
  - replace c with (c * (qx * qx + qy * qy + qz * qz + qw * qw)) at 1 by (rewrite H; ring). ring.
Qed.

(** ** The movement integrator *)

(** In both files the new player position is the old one, plus the forward
    vector scaled, plus the right vector scaled. *)
Lemma useFrame_playerPosition (f : SourceFile) (m : XY) (dt : R) (w : World) :
  playerPosition (useFrame f m dt w) =
  THREE.Vector3.addScaledVector
    (THREE.Vector3.addScaledVector (playerPosition w)
       (forward (THREE.quaternion (camera w))) (y m * (3 * dt)))
    (right (THREE.quaternion (camera w))) (x m * (3 * dt)).
Proof. destruct f; reflexivity. Qed.

Lemma forward_y (q : THREE.Quaternion.t) : THREE.Vector3.y (forward q) = 0.
Proof.
  unfold forward. rewrite normalize_unfold. unfold horizontal; simpl. ring.
Qed.

Lemma right_y (q : THREE.Quaternion.t) : THREE.Vector3.y (right q) = 0.
Proof.
  unfold right. rewrite normalize_unfold. unfold horizontal; simpl. ring.
Qed.

Lemma useFrame_still (f : SourceFile) (dt : R) (w : World) :
  playerPosition (useFrame f (mkXY 0 0) dt w) = playerPosition w.
Proof.
  rewrite useFrame_playerPosition. destruct (playerPosition w) as [a b c].
  unfold THREE.Vector3.addScaledVector; simpl. apply Vector3_eq; ring.
Qed.

Lemma useFrame_height (f : SourceFile) (m : XY) (dt : R) (w : World) :
  THREE.Vector3.y (playerPosition (useFrame f m dt w)) = THREE.Vector3.y (playerPosition w).
Proof.
  rewrite useFrame_playerPosition. unfold THREE.Vector3.addScaledVector.
  cbn [THREE.Vector3.y]. rewrite forward_y, right_y. ring.
Qed.

Lemma setQuaternion_playerPosition (q : THREE.Quaternion.t) (w : World) :
  playerPosition (setQuaternion q w) = playerPosition w.
Proof. reflexivity. Qed.

(** The step for MoveVector (0,1) and one second. *)
Lemma useFrame_ahead (f : SourceFile) (w : World) :
  playerPosition (useFrame f (mkXY 0 1) 1 w) =
  THREE.Vector3.add (playerPosition w)
    (THREE.Vector3.multiplyScalar (forward (THREE.quaternion (camera w))) speed).
Proof.
  rewrite useFrame_playerPosition.
  unfold THREE.Vector3.addScaledVector, THREE.Vector3.add, THREE.Vector3.multiplyScalar, speed.
  simpl. apply Vector3_eq; ring.
Qed.

Lemma moved_ahead (f : SourceFile) (w : World) :
  moved w (useFrame f (mkXY 0 1) 1 w) =
  THREE.Vector3.multiplyScalar (forward (THREE.quaternion (camera w))) speed.
Proof.
  unfold moved. rewrite useFrame_ahead.
  unfold THREE.Vector3.add, THREE.Vector3.multiplyScalar. simpl. apply Vector3_eq; ring.
Qed.

Lemma length_multiplyScalar (v : THREE.Vector3.t) (s : R) :
  0 <= s ->
  THREE.Vector3.length (THREE.Vector3.multiplyScalar v s) = THREE.Vector3.length v * s.
Proof.
  intros Hs. unfold THREE.Vector3.length, THREE.Vector3.multiplyScalar. simpl.
  replace (THREE.Vector3.x v * s * (THREE.Vector3.x v * s)
           + THREE.Vector3.y v * s * (THREE.Vector3.y v * s)
           + THREE.Vector3.z v * s * (THREE.Vector3.z v * s))
    with ((THREE.Vector3.x v * THREE.Vector3.x v + THREE.Vector3.y v * THREE.Vector3.y v
           + THREE.Vector3.z v * THREE.Vector3.z v) * (s * s)) by ring.
  rewrite sqrt_mult_alt by apply sum_squares3_nonneg.
  now rewrite sqrt_of_square.
Qed.

(** The look direction [(0,-1,0)], straight down, of the orientation
    [(-1/2, -1/2, -1/2, 1/2)]. *)
Lemma lookDirection_down :
  lookDirection (THREE.Quaternion.mk (-1/2) (-1/2) (-1/2) (1/2)) = THREE.Vector3.mk 0 (-1) 0.
Proof.
  unfold lookDirection, THREE.Vector3.applyQuaternion. simpl. apply Vector3_eq; field.
Qed.

Lemma forward_down :
  forward (THREE.Quaternion.mk (-1/2) (-1/2) (-1/2) (1/2)) = THREE.Vector3.mk 0 0 0.
Proof.
  unfold forward. rewrite lookDirection_down. unfold horizontal, THREE.Vector3.setY. simpl.
  apply normalize_zero. apply length_zero_iff. simpl. auto.
Qed.

Lemma frames_height (f : SourceFile) (l : list Frame) :
  forall w : World,
    THREE.Vector3.y (playerPosition (frames f l w)) = THREE.Vector3.y (playerPosition w).
Proof.
  induction l as [| fr l IH]; intros w; simpl.
  - reflexivity.
  - rewrite IH, useFrame_height. reflexivity.
Qed.

Lemma frames_still (f : SourceFile) (l : list Frame) :
  Forall (fun fr => frame_moveDirection fr = mkXY 0 0) l ->
  forall w : World, playerPosition (frames f l w) = playerPosition w.
Proof.
  induction 1 as [| fr l Hfr _ IH]; intros w; simpl.
  - reflexivity.
  - rewrite IH, Hfr, useFrame_still. reflexivity.
Qed.

(** C1, as amended.  One step of the integrator, in either file, for every
    MoveVector, elapsed time and camera quaternion: the new position is the
    old position + forward·(y·speed·dt) + right·(x·speed·dt), with speed the
    constant 3 and forward, right the projected and normalized camera
    vectors.  With MoveVector (0,1) and dt = 1 the step adds speed·forward
    and nothing along right; the distance covered is exactly speed whenever
    the look direction has a nonzero horizontal projection. *)
Theorem integrator_step (f : SourceFile) (m : XY) (dt : R) (w : World) :
  speed = 3 /\
  playerPosition (useFrame f m dt w) =
    THREE.Vector3.add
      (THREE.Vector3.add (playerPosition w)
         (THREE.Vector3.multiplyScalar (forward (THREE.quaternion (camera w)))
                                       (y m * speed * dt)))
      (THREE.Vector3.multiplyScalar (right (THREE.quaternion (camera w)))
                                    (x m * speed * dt)) /\
  moved w (useFrame f (mkXY 0 1) 1 w) =
    THREE.Vector3.add
      (THREE.Vector3.multiplyScalar (forward (THREE.quaternion (camera w))) speed)
      (THREE.Vector3.multiplyScalar (right (THREE.quaternion (camera w))) 0) /\
  (THREE.Vector3.length (horizontal (lookDirection (THREE.quaternion (camera w)))) <> 0 ->
   THREE.Vector3.length (moved w (useFrame f (mkXY 0 1) 1 w)) = speed).
Proof.
  split; [reflexivity |]. split; [| split].
  - rewrite useFrame_playerPosition.
    unfold THREE.Vector3.addScaledVector, THREE.Vector3.add, THREE.Vector3.multiplyScalar, speed.
    simpl. apply Vector3_eq; ring.
  - rewrite moved_ahead.
    unfold THREE.Vector3.add, THREE.Vector3.multiplyScalar. simpl. apply Vector3_eq; ring.
  - intros H. rewrite moved_ahead, length_multiplyScalar by (unfold speed; lra).
    unfold forward. rewrite normalize_length by assumption. ring.
Qed.

(** The camera that looks along -z, the orientation of a camera that was
    never turned. *)
Lemma lookDirection_identity :
  lookDirection (THREE.Quaternion.mk 0 0 0 1) = THREE.Vector3.mk 0 0 (-1).
Proof.
  unfold lookDirection, THREE.Vector3.applyQuaternion. simpl. apply Vector3_eq; ring.
Qed.

Lemma integrator_step_witness :
  THREE.Vector3.length
    (moved (initialWorld (THREE.mkCamera (THREE.Vector3.mk 0 1.6 10)
                                         (THREE.Quaternion.mk 0 0 0 1)) None)
           (useFrame part_000 (mkXY 0 1) 1
              (initialWorld (THREE.mkCamera (THREE.Vector3.mk 0 1.6 10)
                                            (THREE.Quaternion.mk 0 0 0 1)) None)))
  = speed.
Proof.
  apply (integrator_step part_000 (mkXY 0 1) 1
           (initialWorld (THREE.mkCamera (THREE.Vector3.mk 0 1.6 10)
                                         (THREE.Quaternion.mk 0 0 0 1)) None)).
  simpl. rewrite lookDirection_identity. intros H.
  apply length_zero_iff in H. simpl in H. lra.
Defined.

(** C1, as it is stated, fails for a camera that looks straight down: the
    projected look direction is the zero vector, [normalize] leaves it so,
    and the step for MoveVector (0,1) and dt = 1 moves the player by 0, not
    by speed. *)
Lemma integrator_step_looking_down :
  orientation (THREE.Quaternion.mk (-1/2) (-1/2) (-1/2) (1/2)) /\
  playerPosition
    (useFrame part_000 (mkXY 0 1) 1
       (initialWorld (THREE.mkCamera (THREE.Vector3.mk 0 1.6 10)
                        (THREE.Quaternion.mk (-1/2) (-1/2) (-1/2) (1/2))) None))
  = THREE.Vector3.mk 0 1.6 10 /\
  playerPosition
    (useFrame HorrorGame_tsx (mkXY 0 1) 1
       (initialWorld (THREE.mkCamera (THREE.Vector3.mk 0 1.6 10)
                        (THREE.Quaternion.mk (-1/2) (-1/2) (-1/2) (1/2))) None))
  = THREE.Vector3.mk 0 1.6 10 /\
  THREE.Vector3.length
    (moved (initialWorld (THREE.mkCamera (THREE.Vector3.mk 0 1.6 10)
                            (THREE.Quaternion.mk (-1/2) (-1/2) (-1/2) (1/2))) None)
           (useFrame part_000 (mkXY 0 1) 1
              (initialWorld (THREE.mkCamera (THREE.Vector3.mk 0 1.6 10)
                               (THREE.Quaternion.mk (-1/2) (-1/2) (-1/2) (1/2))) None)))
  <> speed.
Proof.
  assert (Hpos : forall f,
    playerPosition
      (useFrame f (mkXY 0 1) 1
         (initialWorld (THREE.mkCamera (THREE.Vector3.mk 0 1.6 10)
                          (THREE.Quaternion.mk (-1/2) (-1/2) (-1/2) (1/2))) None))
    = THREE.Vector3.mk 0 1.6 10).
  { intros f. rewrite useFrame_ahead. cbn [initialWorld camera playerPosition THREE.quaternion].
    rewrite forward_down. unfold THREE.Vector3.add, THREE.Vector3.multiplyScalar. simpl.
    apply Vector3_eq; ring. }
  split; [| split; [apply Hpos | split; [apply Hpos |]]].
  - unfold orientation, THREE.Quaternion.lengthSq. simpl. field.
  - rewrite moved_ahead. cbn [initialWorld camera THREE.quaternion].
    rewrite forward_down. intros H.
    assert (H0 : THREE.Vector3.length
                   (THREE.Vector3.multiplyScalar (THREE.Vector3.mk 0 0 0) speed) = 0).
    { apply length_zero_iff. simpl. repeat split; ring. }
    rewrite H0 in H. unfold speed in H. lra.
Qed.

(** C7.  With MoveVector (0,0) a step of the integrator leaves the player
    position exactly as it was, for every elapsed time and every camera
    quaternion, and so does any sequence of frames that all have
    MoveVector (0,0). *)
Theorem zero_input_keeps_position (f : SourceFile) :
  (forall (dt : R) (w : World),
     playerPosition (useFrame f (mkXY 0 0) dt w) = playerPosition w) /\
  (forall (l : list Frame) (w : World),
     Forall (fun fr => frame_moveDirection fr = mkXY 0 0) l ->
     playerPosition (frames f l w) = playerPosition w).
Proof.
  split.
  - apply useFrame_still.
  - intros l w H. now apply frames_still.
Qed.

Lemma zero_input_keeps_position_witness :
  playerPosition
    (frames HorrorGame_tsx
       [mkFrame (mkXY 0 0) (1/60) (THREE.Quaternion.mk 0 0 0 1);
        mkFrame (mkXY 0 0) 2 (THREE.Quaternion.mk (-1/2) (-1/2) (-1/2) (1/2))]
       (initialWorld (THREE.mkCamera (THREE.Vector3.mk 0 0 5)
                                     (THREE.Quaternion.mk 0 0 0 1)) None))
  = THREE.Vector3.mk 0 1.6 10.
Proof.
  apply (proj2 (zero_input_keeps_position HorrorGame_tsx)).
  repeat constructor.
Defined.

(** C9.  The integrator never changes the vertical coordinate of the player
    position: forward and right have a zero vertical component for every
    camera quaternion, a step keeps the height for every MoveVector and
    elapsed time, and from the mounted scene the height is 1.6 after any
    sequence of frames. *)
Theorem height_invariant (f : SourceFile) :
  (forall q : THREE.Quaternion.t,
     THREE.Vector3.y (forward q) = 0 /\ THREE.Vector3.y (right q) = 0) /\
  (forall (m : XY) (dt : R) (w : World),
     THREE.Vector3.y (playerPosition (useFrame f m dt w))
     = THREE.Vector3.y (playerPosition w)) /\
  (forall (l : list Frame) (cam : THREE.Camera) (light : option THREE.SpotLight),
     THREE.Vector3.y (playerPosition (frames f l (initialWorld cam light))) = 1.6).
Proof.
  split; [| split].
  - intros q. split; [apply forward_y | apply right_y].
  - apply useFrame_height.
  - intros l cam light. rewrite frames_height. reflexivity.
Qed.

(** ** The joystick mapper *)

Lemma updatePosition_unmounted (f : SourceFile) (cx cy : R) (s : Joystick) :
  updatePosition f None cx cy s = (s, []).
Proof. destruct f; reflexivity. Qed.

(** Beyond the radius the displacement is scaled back to the radius. *)
Lemma updatePosition_far (f : SourceFile) (rect : DOMRect) (cx cy : R) (s : Joystick) :
  magnitude (displacement rect cx cy) > 40 ->
  updatePosition f (Some rect) cx cy s =
  (mkJoystick (isDragging s)
     (mkXY (x (displacement rect cx cy) / magnitude (displacement rect cx cy) * 40)
           (y (displacement rect cx cy) / magnitude (displacement rect cx cy) * 40)),
   [mkXY (x (displacement rect cx cy) / magnitude (displacement rect cx cy) * 40 / 40)
         (- (y (displacement rect cx cy) / magnitude (displacement rect cx cy) * 40) / 40)]).
Proof.
  intros H. apply js_gt_true in H.
  unfold magnitude, displacement in *. cbn [x y] in *.
  destruct f; unfold updatePosition, Part000.updatePosition, HorrorGameTsx.updatePosition;
    cbv zeta; rewrite H; reflexivity.
Qed.

(** Within the radius it is kept. *)
Lemma updatePosition_near (f : SourceFile) (rect : DOMRect) (cx cy : R) (s : Joystick) :
  magnitude (displacement rect cx cy) <= 40 ->
  updatePosition f (Some rect) cx cy s =
  (mkJoystick (isDragging s) (displacement rect cx cy),
   [mkXY (x (displacement rect cx cy) / 40) (- y (displacement rect cx cy) / 40)]).
Proof.
  intros H. apply js_gt_false in H.
  unfold magnitude, displacement in *. cbn [x y] in *.
  destruct f; unfold updatePosition, Part000.updatePosition, HorrorGameTsx.updatePosition;
    cbv zeta; rewrite H; reflexivity.
Qed.

Lemma magnitude_nonneg (m : XY) : 0 <= magnitude m.
Proof. apply sqrt_pos. Qed.

Lemma magnitude_squared (m : XY) : magnitude m * magnitude m = x m * x m + y m * y m.
Proof. apply sqrt_squared, sum_squares_nonneg. Qed.

Lemma magnitude_le_1 (m : XY) : x m * x m + y m * y m <= 1 -> magnitude m <= 1.
Proof.
  intros H. unfold magnitude. rewrite <- sqrt_1. now apply sqrt_le_1_alt.
Qed.

Lemma magnitude_origin : magnitude (mkXY 0 0) = 0.
Proof.
  unfold magnitude. simpl. replace (0 * 0 + 0 * 0) with 0 by ring. apply sqrt_0.
Qed.

(** On a mounted element [updatePosition] emits exactly one MoveVector: the
    displacement with its vertical component negated, scaled by a positive
    factor [k] that brings its magnitude to at most one. *)
Lemma updatePosition_mounted (f : SourceFile) (rect : DOMRect) (cx cy : R) (s : Joystick) :
  exists (k : R) (m : XY),
    (snd (updatePosition f (Some rect) cx cy s) = [m]) /\ 0 < k /\
    x m = k * x (displacement rect cx cy) /\
    y m = k * - y (displacement rect cx cy) /\
    k * magnitude (displacement rect cx cy) <= 1.
Proof.
  set (d := displacement rect cx cy).
  assert (Hsq := magnitude_squared d). assert (Hpos := magnitude_nonneg d).
  destruct (Rgt_dec (magnitude d) 40) as [Hfar | Hnear].
  - assert (Hd : magnitude d <> 0) by lra.
    exists (/ magnitude d). eexists. rewrite updatePosition_far by exact Hfar.
    fold d. split; [reflexivity |]. cbn [x y].
    repeat split.
    + apply Rinv_0_lt_compat. lra.
    + field. exact Hd.
    + field. exact Hd.
    + rewrite Rinv_l by exact Hd. lra.
  - apply Rnot_gt_le in Hnear.
    exists (/ 40). eexists. rewrite updatePosition_near by exact Hnear.
    fold d. split; [reflexivity |]. cbn [x y].
    repeat split; try lra.
Qed.

Lemma scaled_magnitude (m d : XY) (k : R) :
  0 < k -> x m = k * x d -> y m = k * - y d -> magnitude m = k * magnitude d.
Proof.
  intros Hk Hx Hy. unfold magnitude. rewrite Hx, Hy.
  replace (k * x d * (k * x d) + k * - y d * (k * - y d))
    with ((k * k) * (x d * x d + y d * y d)) by ring.
  rewrite sqrt_mult_alt by nra. rewrite sqrt_of_square by lra. reflexivity.
Qed.

Lemma handleEnd_eq (f : SourceFile) (s : Joystick) :
  handleEnd f s = (mkJoystick false (mkXY 0 0), [mkXY 0 0]).
Proof. destruct f; reflexivity. Qed.

Lemma handleStart_eq (f : SourceFile) (joystickRef : option DOMRect) (cx cy : R) (s : Joystick) :
  handleStart f joystickRef cx cy s =
  updatePosition f joystickRef cx cy (mkJoystick true (position s)).
Proof. destruct f; reflexivity. Qed.

Lemma handleMove_eq (f : SourceFile) (joystickRef : option DOMRect) (cx cy : R) (s : Joystick) :
  handleMove f joystickRef cx cy s =
  if isDragging s then updatePosition f joystickRef cx cy s else (s, []).
Proof. destruct f; reflexivity. Qed.

Lemma updatePosition_isDragging (f : SourceFile) (joystickRef : option DOMRect) (cx cy : R)
    (s : Joystick) :
  isDragging (fst (updatePosition f joystickRef cx cy s)) = isDragging s.
Proof.
  destruct joystickRef as [rect |]; [| now rewrite updatePosition_unmounted].
  destruct (Rgt_dec (magnitude (displacement rect cx cy)) 40).
  - now rewrite updatePosition_far.
  - rewrite updatePosition_near by lra. reflexivity.
Qed.

(** Every MoveVector a handler emits has magnitude at most one. *)
Lemma updatePosition_magnitude (f : SourceFile) (joystickRef : option DOMRect) (cx cy : R)
    (s : Joystick) (m : XY) :
  In m (snd (updatePosition f joystickRef cx cy s)) -> magnitude m <= 1.
Proof.
  destruct joystickRef as [rect |].
  - destruct (updatePosition_mounted f rect cx cy s) as (k & m' & -> & Hk & Hx & Hy & Hle).
    intros [<- | []]. now rewrite (scaled_magnitude _ _ _ Hk Hx Hy).
  - rewrite updatePosition_unmounted. intros [].
Qed.

Lemma magnitude_80_0 : magnitude (mkXY 80 0) = 80.
Proof.
  unfold magnitude. simpl. replace (80 * 80 + 0 * 0) with (80 * 80) by ring.
  apply sqrt_of_square. lra.
Qed.

Lemma dispatch_magnitude (f : SourceFile) (joystickRef : option DOMRect) (e : Event)
    (s : Joystick) (m : XY) :
  In m (snd (dispatch f joystickRef e s)) -> magnitude m <= 1.
Proof.
  destruct e; simpl;
    rewrite ?handleStart_eq, ?handleMove_eq, ?handleEnd_eq;
    try apply updatePosition_magnitude.
  - destruct (isDragging s); [apply updatePosition_magnitude | intros []].
  - intros [<- | []]. rewrite magnitude_origin. lra.
  - destruct (isDragging s); [apply updatePosition_magnitude | intros []].
  - intros [<- | []]. rewrite magnitude_origin. lra.
  - intros [<- | []]. rewrite magnitude_origin. lra.
Qed.

(** What is emitted is a MoveVector of the data model: both components are
    in [-1, 1]. *)
Lemma dispatch_MoveVector (f : SourceFile) (joystickRef : option DOMRect) (e : Event)
    (s : Joystick) (m : XY) :
  In m (snd (dispatch f joystickRef e s)) -> MoveVector m.
Proof.
  intros H. apply dispatch_magnitude in H.
  assert (Hsq := magnitude_squared m). assert (Hpos := magnitude_nonneg m).
  unfold MoveVector. nra.
Qed.



(** C3.  For every raw displacement (dx, dy) from the centre of the control,
    the mapper emits exactly one MoveVector and it is k·(dx, -dy) for some
    k > 0: the direction is kept, clamped or not, and the only change of axis
    is the inversion of the vertical one. *)
Theorem mapper_direction (f : SourceFile) (rect : DOMRect) (cx cy : R) (s : Joystick) :
  exists (k : R) (m : XY),
    0 < k /\
    (snd (updatePosition f (Some rect) cx cy s) = [m]) /\
    x m = k * x (displacement rect cx cy) /\
    y m = k * - y (displacement rect cx cy).
Proof.
  destruct (updatePosition_mounted f rect cx cy s) as (k & m & He & Hk & Hx & Hy & _).
  exists k, m. auto.
Qed.

(** ** The dragging state *)

Lemma onMove_single (c current : XY) : onMove [c] current = c.
Proof. reflexivity. Qed.

Lemma dispatch_release (f : SourceFile) (joystickRef : option DOMRect) (e : Event)
    (s : Joystick) :
  is_release e = true ->
  dispatch f joystickRef e s = (mkJoystick false (mkXY 0 0), [mkXY 0 0]).
Proof.
  destruct e; simpl; intros H; try discriminate; apply handleEnd_eq.
Qed.

(** C4.  A release event (touch end, mouse up, or the pointer leaving the
    control) makes the handler emit the single MoveVector (0,0) and put the
    knob at (0,0), whatever the MoveVector, the knob position and the
    dragging flag were before. *)
Theorem release_resets (f : SourceFile) (joystickRef : option DOMRect) (e : Event)
    (g : HorrorGame) :
  is_release e = true ->
  (snd (dispatch f joystickRef e (joystick g)) = [mkXY 0 0]) /\
  moveDirection (handleEvent f joystickRef e g) = mkXY 0 0 /\
  joystick (handleEvent f joystickRef e g) = mkJoystick false (mkXY 0 0).
Proof.
  intros H. unfold handleEvent. rewrite (dispatch_release f joystickRef e _ H).
  repeat split.
Qed.

Lemma release_resets_witness :
  moveDirection
    (handleEvent HorrorGame_tsx (Some (mkDOMRect 32 600 128 128)) onMouseLeave
       (mkHorrorGame true (mkXY 1 0) (mkJoystick true (mkXY 40 0))))
  = mkXY 0 0.
Proof.
  apply (release_resets HorrorGame_tsx (Some (mkDOMRect 32 600 128 128)) onMouseLeave
           (mkHorrorGame true (mkXY 1 0) (mkJoystick true (mkXY 40 0)))).
  reflexivity.
Defined.

Lemma dispatch_idle_move (f : SourceFile) (joystickRef : option DOMRect) (e : Event)
    (s : Joystick) :
  is_move e = true -> isDragging s = false -> dispatch f joystickRef e s = (s, []).
Proof.
  destruct e; simpl; intros H Hs; try discriminate; now rewrite handleMove_eq, Hs.
Qed.

Lemma updatePosition_calls (f : SourceFile) (joystickRef : option DOMRect) (cx cy : R)
    (s s' : Joystick) :
  snd (updatePosition f joystickRef cx cy s) = snd (updatePosition f joystickRef cx cy s').
Proof.
  destruct joystickRef as [rect |]; [| now rewrite !updatePosition_unmounted].
  destruct (Rgt_dec (magnitude (displacement rect cx cy)) 40) as [H | H].
  - now rewrite !updatePosition_far.
  - apply Rnot_gt_le in H. now rewrite !updatePosition_near.
Qed.

(** C8.  The dragging flag is the only state the mapper's output depends on.
    Every event is a press, a move or a release; a press makes the flag
    true, a release (pointer-leave included) makes it false, a move keeps
    it; two states with the same flag emit the same calls of [onMove]; and
    in the idle state a move event emits nothing and leaves the knob
    position and the MoveVector as they were. *)
Theorem dragging_state_machine (f : SourceFile) (joystickRef : option DOMRect) (e : Event) :
  (is_press e || is_move e || is_release e = true) /\
  (forall s : Joystick,
     is_press e = true -> isDragging (fst (dispatch f joystickRef e s)) = true) /\
  (forall s : Joystick,
     is_release e = true -> isDragging (fst (dispatch f joystickRef e s)) = false) /\
  (forall s : Joystick,
     is_move e = true -> isDragging (fst (dispatch f joystickRef e s)) = isDragging s) /\
  (forall s s' : Joystick,
     isDragging s = isDragging s' ->
     snd (dispatch f joystickRef e s) = snd (dispatch f joystickRef e s')) /\
  (forall s : Joystick,
     is_move e = true -> isDragging s = false -> dispatch f joystickRef e s = (s, [])) /\
  (forall g : HorrorGame,
     is_move e = true -> isDragging (joystick g) = false ->
     handleEvent f joystickRef e g = g).
Proof.
  split; [destruct e; reflexivity |].
  split; [| split; [| split; [| split; [| split]]]].
  - intros s H. destruct e; try discriminate; simpl;
      now rewrite handleStart_eq, updatePosition_isDragging.
  - intros s H. now rewrite dispatch_release.
  - intros s H. destruct e; try discriminate; simpl; rewrite handleMove_eq;
      (destruct (isDragging s) eqn:Hs;
       [now rewrite updatePosition_isDragging | exact Hs]).
  - intros s s' H. destruct e; simpl;
      rewrite ?handleStart_eq, ?handleMove_eq, ?handleEnd_eq;
      try reflexivity; try apply updatePosition_calls.
    + rewrite <- H. destruct (isDragging s); [apply updatePosition_calls | reflexivity].
    + rewrite <- H. destruct (isDragging s); [apply updatePosition_calls | reflexivity].
  - intros s. apply dispatch_idle_move.
  - intros g H Hs. unfold handleEvent. rewrite dispatch_idle_move by assumption.
    destruct g; reflexivity.
Qed.

Lemma dragging_state_machine_witness :
  isDragging
    (fst (dispatch part_000 (Some (mkDOMRect 32 600 128 128)) (onTouchStart 100 650)
            (mkJoystick false (mkXY 0 0)))) = true /\
  isDragging
    (fst (dispatch part_000 (Some (mkDOMRect 32 600 128 128)) onMouseLeave
            (mkJoystick true (mkXY 4 (-14))))) = false /\
  dispatch part_000 (Some (mkDOMRect 32 600 128 128)) (onMouseMove 100 650)
    (mkJoystick false (mkXY 0 0)) = (mkJoystick false (mkXY 0 0), []).
Proof.
  split; [| split].
  - apply (dragging_state_machine part_000 (Some (mkDOMRect 32 600 128 128))
             (onTouchStart 100 650)). reflexivity.
  - apply (dragging_state_machine part_000 (Some (mkDOMRect 32 600 128 128))
             onMouseLeave). reflexivity.
  - apply (dragging_state_machine part_000 (Some (mkDOMRect 32 600 128 128))
             (onMouseMove 100 650)); reflexivity.
Defined.

(** ** No operation leaves the finite numbers *)

Lemma Finite_sqrt_some (a : R) : 0 <= a -> Finite.sqrt a = Some (sqrt a).
Proof.
  intros H. unfold Finite.sqrt. destruct (Rlt_dec a 0); [lra | reflexivity].
Qed.

Lemma Finite_div_some (a b : R) : b <> 0 -> Finite.div a b = Some (a / b).
Proof.
  intros H. unfold Finite.div. destruct (Req_dec_T b 0); [contradiction | reflexivity].
Qed.

Lemma Finite_normalize_some (v : THREE.Vector3.t) :
  Finite.normalize v = Some (THREE.Vector3.normalize v).
Proof.
  unfold Finite.normalize, Finite.length.
  rewrite Finite_sqrt_some by apply sum_squares3_nonneg. cbn [Finite.bind].
  unfold Finite.divideScalar. rewrite Finite_div_some by apply js_or_nonzero.
  reflexivity.
Qed.

Lemma Finite_movement_some (m : XY) (dt : R) (w : World) :
  Finite.movement m dt w =
  Some (THREE.Vector3.addScaledVector
          (THREE.Vector3.addScaledVector (playerPosition w)
             (forward (THREE.quaternion (camera w))) (y m * (3 * dt)))
          (right (THREE.quaternion (camera w))) (x m * (3 * dt)),
        forward (THREE.quaternion (camera w))).
Proof.
  unfold Finite.movement. cbv zeta.
  rewrite !Finite_normalize_some. reflexivity.
Qed.

Lemma Finite_updatePosition_some (f : SourceFile) (joystickRef : option DOMRect) (cx cy : R)
    (s : Joystick) :
  Finite.updatePosition joystickRef cx cy s = Some (updatePosition f joystickRef cx cy s).
Proof.
  destruct joystickRef as [rect |]; [| now rewrite updatePosition_unmounted].
  unfold Finite.updatePosition.
  rewrite !Finite_div_some by lra. cbn [Finite.bind].
  rewrite Finite_sqrt_some by apply sum_squares_nonneg. cbn [Finite.bind].
  change (sqrt ((cx - (left rect + width rect / 2)) * (cx - (left rect + width rect / 2))
                + (cy - (top rect + height rect / 2)) * (cy - (top rect + height rect / 2))))
    with (magnitude (displacement rect cx cy)).
  change (cx - (left rect + width rect / 2)) with (x (displacement rect cx cy)).
  change (cy - (top rect + height rect / 2)) with (y (displacement rect cx cy)).
  destruct (Rgt_dec (magnitude (displacement rect cx cy)) 40) as [H | H].
  - rewrite updatePosition_far by exact H.
    rewrite (proj2 (js_gt_true _ _) H).
    rewrite !Finite_div_some by lra. cbn [Finite.bind].
    rewrite !Finite_div_some by lra. cbn [Finite.bind]. reflexivity.
  - apply Rnot_gt_le in H. rewrite updatePosition_near by exact H.
    rewrite (proj2 (js_gt_false _ _) H). cbn [Finite.bind].
    rewrite !Finite_div_some by lra. cbn [Finite.bind]. reflexivity.
Qed.

(** C6.  The mapper and the integrator are total and never leave the finite
    numbers: run with every division and every square root checked, both
    return, for every input, the very result of the unchecked run.  The
    mapper divides by the distance only in the branch where it exceeds 40,
    and [normalize] divides by the length or, when the length is zero (the
    camera looking straight up or down), by one. *)
Theorem never_fails (f : SourceFile) :
  (forall (joystickRef : option DOMRect) (cx cy : R) (s : Joystick),
     Finite.updatePosition joystickRef cx cy s = Some (updatePosition f joystickRef cx cy s)) /\
  (forall (m : XY) (dt : R) (w : World),
     Finite.useFrame f m dt w = Some (useFrame f m dt w)) /\
  (forall v : THREE.Vector3.t, Finite.normalize v = Some (THREE.Vector3.normalize v)) /\
  Finite.normalize (THREE.Vector3.mk 0 0 0) = Some (THREE.Vector3.mk 0 0 0).
Proof.
  split; [| split; [| split]].
  - apply Finite_updatePosition_some.
  - intros m dt w. unfold Finite.useFrame. rewrite Finite_movement_some. cbn [Finite.bind].
    destruct f; reflexivity.
  - apply Finite_normalize_some.
  - rewrite Finite_normalize_some. f_equal. apply normalize_zero.
    apply length_zero_iff. simpl. auto.
Qed.

(** ** Forward and right *)

Lemma xAxis_rolled : xAxis rolled = THREE.Vector3.mk (3/5) (4/5) 0.
Proof.
  unfold xAxis, rolled, THREE.Vector3.applyQuaternion. simpl. apply Vector3_eq; field.
Qed.

Lemma lookDirection_rolled : lookDirection rolled = THREE.Vector3.mk (-16/25) (12/25) (-3/5).
Proof.
  unfold lookDirection, rolled, THREE.Vector3.applyQuaternion. simpl. apply Vector3_eq; field.
Qed.

Lemma forward_x_rolled : THREE.Vector3.x (forward rolled) <> 0.
Proof.
  unfold forward. rewrite normalize_unfold, lookDirection_rolled.
  unfold horizontal, THREE.Vector3.setY, THREE.Vector3.multiplyScalar.
  cbn [THREE.Vector3.x THREE.Vector3.y THREE.Vector3.z].
  set (l := js_or _ 1). assert (Hl : l <> 0) by apply js_or_nonzero.
  intros H. apply Rmult_integral in H. destruct H as [H | H]; [lra |].
  unfold Rdiv in H. rewrite Rmult_1_l in H. now apply (Rinv_neq_0_compat l).
Qed.

Lemma right_z_rolled : THREE.Vector3.z (right rolled) = 0.
Proof.
  unfold right. rewrite normalize_unfold, xAxis_rolled.
  unfold horizontal, THREE.Vector3.setY, THREE.Vector3.multiplyScalar.
  cbn [THREE.Vector3.x THREE.Vector3.y THREE.Vector3.z]. ring.
Qed.

(** C5, as it is stated, fails for a camera with roll: for the orientation
    [rolled] both horizontal projections are nonzero, the right vector is
    along the x axis, and the forward vector has a nonzero x component, so
    that neither quarter turn of forward about the vertical axis is right. *)
Lemma right_is_not_quarter_turn_rolled :
  orientation rolled /\
  THREE.Vector3.length (horizontal (lookDirection rolled)) <> 0 /\
  THREE.Vector3.length (horizontal (xAxis rolled)) <> 0 /\
  right rolled <> quarterTurn (forward rolled) /\
  right rolled <> quarterTurn' (forward rolled).
Proof.
  split; [| split; [| split; [| split]]].
  - unfold orientation, rolled, THREE.Quaternion.lengthSq. simpl. field.
  - rewrite lookDirection_rolled. intros H. apply length_zero_iff in H. simpl in H. lra.
  - rewrite xAxis_rolled. intros H. apply length_zero_iff in H. simpl in H. lra.
  - intros H. apply (f_equal THREE.Vector3.z) in H.
    rewrite right_z_rolled in H. unfold quarterTurn in H. cbn [THREE.Vector3.z] in H.
    now apply forward_x_rolled.
  - intros H. apply (f_equal THREE.Vector3.z) in H.
    rewrite right_z_rolled in H. unfold quarterTurn' in H. cbn [THREE.Vector3.z] in H.
    apply forward_x_rolled. lra.
Qed.

(** The axes of a camera orientation: the x axis and the look direction are
    orthogonal, and the height of the up axis is the planar determinant of
    the look direction and the x axis. *)
Lemma camera_axes (q : THREE.Quaternion.t) :
  orientation q ->
  THREE.Vector3.x (xAxis q) * THREE.Vector3.x (lookDirection q)
  + THREE.Vector3.y (xAxis q) * THREE.Vector3.y (lookDirection q)
  + THREE.Vector3.z (xAxis q) * THREE.Vector3.z (lookDirection q) = 0 /\
  THREE.Vector3.y (yAxis q)
  = THREE.Vector3.x (lookDirection q) * THREE.Vector3.z (xAxis q)
    - THREE.Vector3.z (lookDirection q) * THREE.Vector3.x (xAxis q).
Proof.
  destruct q as [a b c d].
  unfold orientation, THREE.Quaternion.lengthSq, xAxis, yAxis, lookDirection,
    THREE.Vector3.applyQuaternion.
  simpl. intros H. split; nsatz.
Qed.

Lemma horizontal_length (v : THREE.Vector3.t) :
  THREE.Vector3.length (horizontal v)
  = sqrt (THREE.Vector3.x v * THREE.Vector3.x v + THREE.Vector3.z v * THREE.Vector3.z v).
Proof.
  unfold THREE.Vector3.length, horizontal, THREE.Vector3.setY.
  cbn [THREE.Vector3.x THREE.Vector3.y THREE.Vector3.z]. f_equal. ring.
Qed.

(** In the plane: two orthogonal nonzero vectors with a positive determinant
    are, once normalized, a quarter turn of one another. *)
Lemma planar_quarter_turn (l1 l3 r1 r3 L N : R) :
  0 < L -> 0 < N ->
  L * L = l1 * l1 + l3 * l3 -> N * N = r1 * r1 + r3 * r3 ->
  l1 * r1 + l3 * r3 = 0 ->
  0 < l1 * r3 - l3 * r1 ->
  r1 * (1 / N) = - (l3 * (1 / L)) /\ r3 * (1 / N) = l1 * (1 / L).
Proof.
  intros HL HN HLL HNN Horth Hdet.
  assert (Hu : l1 * r3 - l3 * r1 = L * N).
  { assert (Hsq : (l1 * r3 - l3 * r1) * (l1 * r3 - l3 * r1) = (L * N) * (L * N)).
    { replace (L * N * (L * N)) with ((L * L) * (N * N)) by ring.
      rewrite HLL, HNN.
      replace ((l1 * l1 + l3 * l3) * (r1 * r1 + r3 * r3))
        with ((l1 * r3 - l3 * r1) * (l1 * r3 - l3 * r1)
              + (l1 * r1 + l3 * r3) * (l1 * r1 + l3 * r3)) by ring.
      rewrite Horth. ring. }
    assert (HLN : 0 < L * N) by now apply Rmult_lt_0_compat.
    nra. }
  assert (H1 : r1 * L = - l3 * N).
  { apply (Rmult_eq_reg_l L); [| lra].
    replace (L * (r1 * L)) with (r1 * (L * L)) by ring.
    replace (L * (- l3 * N)) with (- l3 * (L * N)) by ring.
    rewrite HLL, <- Hu.
    replace (r1 * (l1 * l1 + l3 * l3)) with (l1 * (l1 * r1 + l3 * r3) - l3 * (l1 * r3 - l3 * r1))
      by ring.
    rewrite Horth. ring. }
  assert (H3 : r3 * L = l1 * N).
  { apply (Rmult_eq_reg_l L); [| lra].
    replace (L * (r3 * L)) with (r3 * (L * L)) by ring.
    replace (L * (l1 * N)) with (l1 * (L * N)) by ring.
    rewrite HLL, <- Hu.
    replace (r3 * (l1 * l1 + l3 * l3)) with (l3 * (l1 * r1 + l3 * r3) + l1 * (l1 * r3 - l3 * r1))
      by ring.
    rewrite Horth. ring. }
  split.
  - apply (Rmult_eq_reg_r (L * N)); [| nra].
    replace (r1 * (1 / N) * (L * N)) with (r1 * L) by (field; lra).
    replace (- (l3 * (1 / L)) * (L * N)) with (- l3 * N) by (field; lra).
    exact H1.
  - apply (Rmult_eq_reg_r (L * N)); [| nra].
    replace (r3 * (1 / N) * (L * N)) with (r3 * L) by (field; lra).
    replace (l1 * (1 / L) * (L * N)) with (l1 * N) by (field; lra).
    exact H3.
Qed.

(** The normalized horizontal vectors, component by component. *)
Lemma right_components (q : THREE.Quaternion.t) :
  THREE.Vector3.length (horizontal (xAxis q)) <> 0 ->
  right q =
  THREE.Vector3.mk
    (THREE.Vector3.x (xAxis q) * (1 / THREE.Vector3.length (horizontal (xAxis q))))
    0
    (THREE.Vector3.z (xAxis q) * (1 / THREE.Vector3.length (horizontal (xAxis q)))).
Proof.
  intros H. unfold right. rewrite normalize_unfold, js_or_of_nonzero by exact H.
  unfold THREE.Vector3.multiplyScalar.
  apply Vector3_eq; unfold horizontal, THREE.Vector3.setY;
    cbn [THREE.Vector3.x THREE.Vector3.y THREE.Vector3.z]; ring.
Qed.

Lemma forward_components (q : THREE.Quaternion.t) :
  THREE.Vector3.length (horizontal (lookDirection q)) <> 0 ->
  forward q =
  THREE.Vector3.mk
    (THREE.Vector3.x (lookDirection q)
     * (1 / THREE.Vector3.length (horizontal (lookDirection q))))
    0
    (THREE.Vector3.z (lookDirection q)
     * (1 / THREE.Vector3.length (horizontal (lookDirection q)))).
Proof.
  intros H. unfold forward. rewrite normalize_unfold, js_or_of_nonzero by exact H.
  unfold THREE.Vector3.multiplyScalar.
  apply Vector3_eq; unfold horizontal, THREE.Vector3.setY;
    cbn [THREE.Vector3.x THREE.Vector3.y THREE.Vector3.z]; ring.
Qed.

Lemma horizontal_length_facts (v : THREE.Vector3.t) :
  THREE.Vector3.length (horizontal v) <> 0 ->
  0 < THREE.Vector3.length (horizontal v) /\
  THREE.Vector3.length (horizontal v) * THREE.Vector3.length (horizontal v)
  = THREE.Vector3.x v * THREE.Vector3.x v + THREE.Vector3.z v * THREE.Vector3.z v.
Proof.
  intros H. split.
  - assert (H0 := length_nonneg (horizontal v)). lra.
  - rewrite horizontal_length. apply sqrt_squared, sum_squares_nonneg.
Qed.

(** C5, as amended.  For every camera orientation for which the horizontal
    projections are nonzero, the right vector the integrator computes is its
    forward vector rotated by a quarter turn about the vertical axis if and
    only if the camera's x axis or its look direction is horizontal (the
    camera has no roll, or no pitch); for such a camera that is upright, in
    particular for every turn about the vertical axis alone, the quarter turn
    is the clockwise one seen from above, and for one that is upside down it
    is the other one. *)
Theorem right_is_quarter_turn (q : THREE.Quaternion.t) :
  orientation q ->
  THREE.Vector3.length (horizontal (lookDirection q)) <> 0 ->
  THREE.Vector3.length (horizontal (xAxis q)) <> 0 ->
  ((right q = quarterTurn (forward q) \/ right q = quarterTurn' (forward q)) <->
   (THREE.Vector3.y (xAxis q) = 0 \/ THREE.Vector3.y (lookDirection q) = 0)) /\
  ((THREE.Vector3.y (xAxis q) = 0 \/ THREE.Vector3.y (lookDirection q) = 0) ->
   (0 < THREE.Vector3.y (yAxis q) -> right q = quarterTurn (forward q)) /\
   (THREE.Vector3.y (yAxis q) < 0 -> right q = quarterTurn' (forward q)) /\
   THREE.Vector3.y (yAxis q) <> 0).
Proof.
  intros Hq Hl Hr.
  destruct (camera_axes q Hq) as (Horth & Hup).
  destruct (horizontal_length_facts _ Hl) as (HL & HLL).
  destruct (horizontal_length_facts _ Hr) as (HN & HNN).
  rewrite (right_components q Hr), (forward_components q Hl).
  unfold quarterTurn, quarterTurn'. cbn [THREE.Vector3.x THREE.Vector3.y THREE.Vector3.z].
  set (L := THREE.Vector3.length (horizontal (lookDirection q))) in *.
  set (N := THREE.Vector3.length (horizontal (xAxis q))) in *.
  set (l1 := THREE.Vector3.x (lookDirection q)) in *.
  set (l2 := THREE.Vector3.y (lookDirection q)) in *.
  set (l3 := THREE.Vector3.z (lookDirection q)) in *.
  set (r1 := THREE.Vector3.x (xAxis q)) in *.
  set (r2 := THREE.Vector3.y (xAxis q)) in *.
  set (r3 := THREE.Vector3.z (xAxis q)) in *.
  set (u := THREE.Vector3.y (yAxis q)) in *.
  assert (Hsuff : r2 = 0 \/ l2 = 0 ->
    (0 < u ->
     THREE.Vector3.mk (r1 * (1 / N)) 0 (r3 * (1 / N))
     = THREE.Vector3.mk (- (l3 * (1 / L))) 0 (l1 * (1 / L))) /\
    (u < 0 ->
     THREE.Vector3.mk (r1 * (1 / N)) 0 (r3 * (1 / N))
     = THREE.Vector3.mk (l3 * (1 / L)) 0 (- (l1 * (1 / L)))) /\
    u <> 0).
  { intros Hlevel.
    assert (Hplane : l1 * r1 + l3 * r3 = 0).
    { assert (r2 * l2 = 0) by (destruct Hlevel as [-> | ->]; ring). lra. }
    split; [| split].
    - intros Hu.
      destruct (planar_quarter_turn l1 l3 r1 r3 L N) as (E1 & E3); try assumption; try lra.
      now rewrite E1, E3.
    - intros Hu.
      destruct (planar_quarter_turn (- l1) (- l3) r1 r3 L N) as (E1 & E3);
        try assumption; try lra.
      rewrite E1, E3. apply Vector3_eq; ring.
    - intros Hu.
      assert (HLN : 0 < (L * L) * (N * N)) by (apply Rmult_lt_0_compat; nra).
      rewrite HLL, HNN in HLN.
      replace ((l1 * l1 + l3 * l3) * (r1 * r1 + r3 * r3))
        with ((l1 * r3 - l3 * r1) * (l1 * r3 - l3 * r1)
              + (l1 * r1 + l3 * r3) * (l1 * r1 + l3 * r3)) in HLN by ring.
      rewrite Hplane, <- Hup, Hu in HLN. lra. }
  split; [| exact Hsuff].
  split.
  - intros Hturn.
    assert (Hplane : l1 * r1 + l3 * r3 = 0).
    { assert (Er1 : r1 = N * (r1 * (1 / N))) by (field; lra).
      assert (Er3 : r3 = N * (r3 * (1 / N))) by (field; lra).
      destruct Hturn as [E | E]; injection E as E1 E3;
        rewrite Er1, Er3, E1, E3; field; lra. }
    assert (Hprod : r2 * l2 = 0) by lra.
    apply Rmult_integral in Hprod. exact Hprod.
  - intros Hlevel. destruct (Hsuff Hlevel) as (Hpos & Hneg & Hu).
    destruct (Rtotal_order u 0) as [Hlt | [Heq | Hgt]].
    + right. now apply Hneg.
    + contradiction.
    + left. now apply Hpos.
Qed.

Lemma right_is_quarter_turn_witness :
  right turned = quarterTurn (forward turned).
Proof.
  assert (Hl : lookDirection turned = THREE.Vector3.mk (-24/25) 0 (-7/25)).
  { unfold lookDirection, turned, THREE.Vector3.applyQuaternion. simpl.
    apply Vector3_eq; field. }
  assert (Hr : xAxis turned = THREE.Vector3.mk (7/25) 0 (-24/25)).
  { unfold xAxis, turned, THREE.Vector3.applyQuaternion. simpl.
    apply Vector3_eq; field. }
  assert (Hu : yAxis turned = THREE.Vector3.mk 0 1 0).
  { unfold yAxis, turned, THREE.Vector3.applyQuaternion. simpl.
    apply Vector3_eq; field. }
  apply (right_is_quarter_turn turned).
  - unfold orientation, turned, THREE.Quaternion.lengthSq. simpl. field.
  - rewrite Hl. intros H. apply length_zero_iff in H. simpl in H. lra.
  - rewrite Hr. intros H. apply length_zero_iff in H. simpl in H. lra.
  - left. rewrite Hr. reflexivity.
  - rewrite Hu. simpl. lra.
Defined.

(** ** The two source versions *)

(** What a step adds to the player position depends on the camera quaternion,
    the MoveVector and the elapsed time only. *)
Lemma moved_useFrame (f : SourceFile) (m : XY) (dt : R) (w : World) :
  moved w (useFrame f m dt w) =
  THREE.Vector3.add
    (THREE.Vector3.multiplyScalar (forward (THREE.quaternion (camera w))) (y m * (3 * dt)))
    (THREE.Vector3.multiplyScalar (right (THREE.quaternion (camera w))) (x m * (3 * dt))).
Proof.
  unfold moved. rewrite useFrame_playerPosition.
  unfold THREE.Vector3.addScaledVector, THREE.Vector3.add, THREE.Vector3.multiplyScalar.
  cbn [THREE.Vector3.x THREE.Vector3.y THREE.Vector3.z]. apply Vector3_eq; ring.
Qed.

(** C10.  The two files implement the same mapper and the same integrator:
    [updatePosition] (and the three handlers around it) return the same
    state and emit the same MoveVector for the same pointer coordinates and
    joystick rectangle, and one step of the frame callback adds the same
    displacement to the player position for the same camera quaternion,
    MoveVector and elapsed time, so that from the same scene both reach the
    same player position. *)
Theorem versions_agree :
  (forall (joystickRef : option DOMRect) (cx cy : R) (s : Joystick),
     Part000.updatePosition joystickRef cx cy s
     = HorrorGameTsx.updatePosition joystickRef cx cy s) /\
  (forall (joystickRef : option DOMRect) (e : Event) (s : Joystick),
     dispatch part_000 joystickRef e s = dispatch HorrorGame_tsx joystickRef e s) /\
  (forall (m : XY) (dt : R) (w w' : World),
     THREE.quaternion (camera w) = THREE.quaternion (camera w') ->
     moved w (Part000.useFrame m dt w) = moved w' (HorrorGameTsx.useFrame m dt w')) /\
  (forall (m : XY) (dt : R) (w : World),
     playerPosition (Part000.useFrame m dt w)
     = playerPosition (HorrorGameTsx.useFrame m dt w)).
Proof.
  split; [reflexivity |]. split; [intros ref e s; destruct e; reflexivity |]. split.
  - intros m dt w w' H.
    change (Part000.useFrame m dt w) with (useFrame part_000 m dt w).
    change (HorrorGameTsx.useFrame m dt w') with (useFrame HorrorGame_tsx m dt w').
    rewrite !moved_useFrame, H. reflexivity.
  - reflexivity.
Qed.

Lemma versions_agree_witness :
  moved (initialWorld (THREE.mkCamera (THREE.Vector3.mk 0 1.6 10) level) None)
        (Part000.useFrame (mkXY 1 0) (1/60)
           (initialWorld (THREE.mkCamera (THREE.Vector3.mk 0 1.6 10) level) None))
  = moved (mkWorld (THREE.Vector3.mk 3 1.6 (-2)) (THREE.Euler.mk 0 0 0)
                   (THREE.mkCamera (THREE.Vector3.mk 0 0 5) level) None)
          (HorrorGameTsx.useFrame (mkXY 1 0) (1/60)
             (mkWorld (THREE.Vector3.mk 3 1.6 (-2)) (THREE.Euler.mk 0 0 0)
                      (THREE.mkCamera (THREE.Vector3.mk 0 0 5) level) None)).
Proof.
  apply (proj1 (proj2 (proj2 versions_agree))).
  reflexivity.
Defined.

(** The versions differ in what they leave in the camera: [part_000] keeps its
    quaternion, [HorrorGame.tsx] overwrites it with the player rotation. *)
Lemma useFrame_camera_quaternion (m : XY) (dt : R) (w : World) :
  THREE.quaternion (camera (Part000.useFrame m dt w)) = THREE.quaternion (camera w) /\
  THREE.quaternion (camera (HorrorGameTsx.useFrame m dt w))
  = THREE.setFromEuler (playerRotation w).
Proof. split; reflexivity. Qed.

(** * Further properties of the code *)

(** ** How frames compose *)

Lemma frame_playerPosition (f : SourceFile) (fr : Frame) (w : World) :
  playerPosition
    (useFrame f (frame_moveDirection fr) (frame_delta fr)
       (setQuaternion (frame_quaternion fr) w)) =
  THREE.Vector3.addScaledVector
    (THREE.Vector3.addScaledVector (playerPosition w)
       (forward (frame_quaternion fr)) (y (frame_moveDirection fr) * (3 * frame_delta fr)))
    (right (frame_quaternion fr)) (x (frame_moveDirection fr) * (3 * frame_delta fr)).
Proof. rewrite useFrame_playerPosition. reflexivity. Qed.

Lemma turned_playerPosition (f : SourceFile) (m : XY) (dt : R) (q : THREE.Quaternion.t)
    (w : World) :
  playerPosition (useFrame f m dt (setQuaternion q w)) =
  THREE.Vector3.addScaledVector
    (THREE.Vector3.addScaledVector (playerPosition w) (forward q) (y m * (3 * dt)))
    (right q) (x m * (3 * dt)).
Proof. rewrite useFrame_playerPosition. reflexivity. Qed.

(** The position a sequence of frames ends at depends on the scene through
    the position it starts from only. *)
Lemma frames_position_ext (f : SourceFile) (l : list Frame) :
  forall w w' : World,
    playerPosition w = playerPosition w' ->
    playerPosition (frames f l w) = playerPosition (frames f l w').
Proof.
  induction l as [| fr l IH]; intros w w' H; simpl.
  - exact H.
  - apply IH. rewrite !frame_playerPosition, H. reflexivity.
Qed.

Lemma frames_swap (f : SourceFile) (fr fr' : Frame) (w : World) :
  playerPosition (frames f [fr; fr'] w) = playerPosition (frames f [fr'; fr] w).
Proof.
  simpl. rewrite !frame_playerPosition.
  unfold THREE.Vector3.addScaledVector.
  cbn [THREE.Vector3.x THREE.Vector3.y THREE.Vector3.z]. apply Vector3_eq; ring.
Qed.

(** X1.  The player position a sequence of frames ends at does not depend on
    the order of the frames: each frame adds a displacement that depends on
    its own MoveVector, elapsed time and camera quaternion and not on where
    the player is. *)
Theorem frames_order_irrelevant (f : SourceFile) (l l' : list Frame) :
  Permutation l l' ->
  forall w : World, playerPosition (frames f l w) = playerPosition (frames f l' w).
Proof.
  induction 1 as [| fr l l' _ IH | fr fr' l | l l' l'' _ IH _ IH']; intros w.
  - reflexivity.
  - simpl. apply IH.
  - change (frames f (fr' :: fr :: l) w) with (frames f l (frames f [fr'; fr] w)).
    change (frames f (fr :: fr' :: l) w) with (frames f l (frames f [fr; fr'] w)).
    apply frames_position_ext, frames_swap.
  - now rewrite IH.
Qed.

Lemma frames_order_irrelevant_witness :
  playerPosition
    (frames part_000 [mkFrame (mkXY 1 0) (1/60) turned; mkFrame (mkXY 0 1) (1/30) rolled]
       (initialWorld (THREE.mkCamera (THREE.Vector3.mk 0 1.6 10) level) None))
  = playerPosition
      (frames part_000 [mkFrame (mkXY 0 1) (1/30) rolled; mkFrame (mkXY 1 0) (1/60) turned]
         (initialWorld (THREE.mkCamera (THREE.Vector3.mk 0 1.6 10) level) None)).
Proof.
  apply (frames_order_irrelevant part_000). apply perm_swap.
Defined.



(** ** The spot light and the camera *)

(** X4.  When the spot light is mounted, a frame puts it and the camera at the
    new player position and its target five units ahead along forward: the
    beam is horizontal, at the player's height, whatever the pitch of the
    camera, and the target is at distance 5 unless the camera looks straight
    up or down, when it coincides with the light. *)
Theorem spotlight_follows (f : SourceFile) (m : XY) (dt : R) (w : World)
    (s : THREE.SpotLight) :
  spotLight w = Some s ->
  exists s' : THREE.SpotLight,
    spotLight (useFrame f m dt w) = Some s' /\
    THREE.light_position s' = playerPosition (useFrame f m dt w) /\
    THREE.position (camera (useFrame f m dt w)) = playerPosition (useFrame f m dt w) /\
    THREE.target_position s' =
      THREE.Vector3.add (THREE.light_position s')
        (THREE.Vector3.multiplyScalar (forward (THREE.quaternion (camera w))) 5) /\
    THREE.Vector3.y (THREE.target_position s') = THREE.Vector3.y (playerPosition w) /\
    (THREE.Vector3.length (horizontal (lookDirection (THREE.quaternion (camera w)))) <> 0 ->
     THREE.Vector3.length
       (THREE.Vector3.multiplyScalar (forward (THREE.quaternion (camera w))) 5) = 5) /\
    (THREE.Vector3.length (horizontal (lookDirection (THREE.quaternion (camera w)))) = 0 ->
     THREE.target_position s' = THREE.light_position s').
Proof.
  intros Hs.
  exists (THREE.mkSpotLight
            (playerPosition (useFrame f m dt w))
            (THREE.Vector3.add (playerPosition (useFrame f m dt w))
               (THREE.Vector3.multiplyScalar (forward (THREE.quaternion (camera w))) 5))).
  split; [| split; [| split; [| split; [| split; [| split]]]]].
  - destruct f; unfold useFrame, Part000.useFrame, HorrorGameTsx.useFrame;
      cbv zeta; rewrite Hs; reflexivity.
  - reflexivity.
  - destruct f; reflexivity.
  - reflexivity.
  - cbn [THREE.target_position]. unfold THREE.Vector3.add, THREE.Vector3.multiplyScalar.
    cbn [THREE.Vector3.y]. rewrite useFrame_height, forward_y. ring.
  - intros H. rewrite length_multiplyScalar by lra.
    unfold forward. rewrite normalize_length by exact H. ring.
  - intros H. cbn [THREE.target_position THREE.light_position].
    unfold forward. rewrite normalize_zero by exact H.
    apply length_zero_iff in H. destruct H as (Hx & Hy & Hz).
    destruct (playerPosition (useFrame f m dt w)) as [a b c].
    unfold THREE.Vector3.add, THREE.Vector3.multiplyScalar.
    cbn [THREE.Vector3.x THREE.Vector3.y THREE.Vector3.z]. rewrite Hx, Hy, Hz.
    apply Vector3_eq; ring.
Qed.

Lemma spotlight_follows_witness :
  exists s' : THREE.SpotLight,
    spotLight
      (useFrame HorrorGame_tsx (mkXY 0 1) 1
         (initialWorld (THREE.mkCamera (THREE.Vector3.mk 0 0 5) level)
            (Some (THREE.mkSpotLight (THREE.Vector3.mk 0 0 0) (THREE.Vector3.mk 0 0 0)))))
    = Some s' /\
    THREE.Vector3.y (THREE.target_position s') = 1.6.
Proof.
  destruct (spotlight_follows HorrorGame_tsx (mkXY 0 1) 1
              (initialWorld (THREE.mkCamera (THREE.Vector3.mk 0 0 5) level)
                 (Some (THREE.mkSpotLight (THREE.Vector3.mk 0 0 0) (THREE.Vector3.mk 0 0 0))))
              (THREE.mkSpotLight (THREE.Vector3.mk 0 0 0) (THREE.Vector3.mk 0 0 0))
              eq_refl)
    as (s' & Hs & _ & _ & _ & Hy & _).
  exists s'. split; [exact Hs | exact Hy].
Defined.

Lemma setFromEuler_zero : THREE.setFromEuler (THREE.Euler.mk 0 0 0) = level.
Proof.
  unfold THREE.setFromEuler, level. cbn [THREE.Euler.x THREE.Euler.y THREE.Euler.z].
  replace (0 / 2) with 0 by field. rewrite cos_0, sin_0. f_equal; ring.
Qed.

Lemma forward_level : forward level = THREE.Vector3.mk 0 0 (-1).
Proof.
  unfold forward, level. rewrite lookDirection_identity.
  rewrite normalize_unfold.
  assert (Hl : THREE.Vector3.length (horizontal (THREE.Vector3.mk 0 0 (-1))) = 1).
  { rewrite horizontal_length. cbn [THREE.Vector3.x THREE.Vector3.z].
    replace (0 * 0 + -1 * -1) with 1 by ring. apply sqrt_1. }
  rewrite Hl, js_or_of_nonzero by lra.
  unfold horizontal, THREE.Vector3.setY, THREE.Vector3.multiplyScalar.
  cbn [THREE.Vector3.x THREE.Vector3.y THREE.Vector3.z]. apply Vector3_eq; field.
Qed.

Lemma right_level : right level = THREE.Vector3.mk 1 0 0.
Proof.
  assert (Hx : xAxis level = THREE.Vector3.mk 1 0 0).
  { unfold xAxis, level, THREE.Vector3.applyQuaternion. simpl. apply Vector3_eq; ring. }
  unfold right. rewrite Hx, normalize_unfold.
  assert (Hl : THREE.Vector3.length (horizontal (THREE.Vector3.mk 1 0 0)) = 1).
  { rewrite horizontal_length. cbn [THREE.Vector3.x THREE.Vector3.z].
    replace (1 * 1 + 0 * 0) with 1 by ring. apply sqrt_1. }
  rewrite Hl, js_or_of_nonzero by lra.
  unfold horizontal, THREE.Vector3.setY, THREE.Vector3.multiplyScalar.
  cbn [THREE.Vector3.x THREE.Vector3.y THREE.Vector3.z]. apply Vector3_eq; field.
Qed.

Lemma useFrame_playerRotation (f : SourceFile) (m : XY) (dt : R) (w : World) :
  playerRotation (useFrame f m dt w) = playerRotation w.
Proof. destruct f; reflexivity. Qed.

Lemma steps_playerRotation (f : SourceFile) (l : list (XY * R)) :
  forall w : World, playerRotation (steps f l w) = playerRotation w.
Proof.
  induction l as [| [m dt] l IH]; intros w; simpl.
  - reflexivity.
  - now rewrite IH, useFrame_playerRotation.
Qed.

Lemma steps_height (f : SourceFile) (l : list (XY * R)) :
  forall w : World,
    THREE.Vector3.y (playerPosition (steps f l w)) = THREE.Vector3.y (playerPosition w).
Proof.
  induction l as [| [m dt] l IH]; intros w; simpl.
  - reflexivity.
  - now rewrite IH, useFrame_height.
Qed.

Lemma steps_tsx_quaternion (l : list (XY * R)) :
  forall w : World,
    THREE.quaternion (camera w) = THREE.setFromEuler (playerRotation w) ->
    THREE.quaternion (camera (steps HorrorGame_tsx l w))
    = THREE.setFromEuler (playerRotation w).
Proof.
  induction l as [| [m dt] l IH]; intros w H; simpl.
  - exact H.
  - rewrite IH; reflexivity.
Qed.

(** X5.  In [HorrorGame.tsx] every frame writes the player rotation, which no
    code changes, into the camera.  From the mounted scene, whatever the
    camera was, after the first frame the camera is level and stays so, and
    each further frame moves the player along the world axes: by
    3·dt·x along x and by 3·dt·y along -z. *)
Theorem tsx_camera_stays_level (cam : THREE.Camera) (light : option THREE.SpotLight)
    (m0 : XY) (dt0 : R) (l : list (XY * R)) (m : XY) (dt : R) :
  playerRotation (steps HorrorGame_tsx ((m0, dt0) :: l) (initialWorld cam light))
  = THREE.Euler.mk 0 0 0 /\
  THREE.quaternion (camera (steps HorrorGame_tsx ((m0, dt0) :: l) (initialWorld cam light)))
  = level /\
  playerPosition
    (useFrame HorrorGame_tsx m dt
       (steps HorrorGame_tsx ((m0, dt0) :: l) (initialWorld cam light)))
  = THREE.Vector3.mk
      (THREE.Vector3.x
         (playerPosition (steps HorrorGame_tsx ((m0, dt0) :: l) (initialWorld cam light)))
       + 3 * dt * x m)
      1.6
      (THREE.Vector3.z
         (playerPosition (steps HorrorGame_tsx ((m0, dt0) :: l) (initialWorld cam light)))
       - 3 * dt * y m).
Proof.
  assert (Hq : THREE.quaternion
                 (camera (steps HorrorGame_tsx ((m0, dt0) :: l) (initialWorld cam light)))
               = level).
  { cbn [steps]. rewrite steps_tsx_quaternion by reflexivity.
    rewrite useFrame_playerRotation. apply setFromEuler_zero. }
  split; [| split].
  - rewrite steps_playerRotation. reflexivity.
  - exact Hq.
  - rewrite useFrame_playerPosition, Hq, forward_level, right_level.
    assert (Hy : THREE.Vector3.y
                   (playerPosition
                      (steps HorrorGame_tsx ((m0, dt0) :: l) (initialWorld cam light)))
                 = 1.6).
    { rewrite steps_height. reflexivity. }
    unfold THREE.Vector3.addScaledVector.
    cbn [THREE.Vector3.x THREE.Vector3.y THREE.Vector3.z]. rewrite Hy.
    apply Vector3_eq; ring.
Qed.

(** ** How fast and in which direction the player moves *)

Lemma orthonormal_combination (f1 f3 r1 r3 a b : R) :
  f1 * f1 + f3 * f3 = 1 -> r1 * r1 + r3 * r3 = 1 -> f1 * r1 + f3 * r3 = 0 ->
  (f1 * a + r1 * b) * (f1 * a + r1 * b) + (0 * a + 0 * b) * (0 * a + 0 * b)
  + (f3 * a + r3 * b) * (f3 * a + r3 * b) = a * a + b * b.
Proof. intros Hf Hr Ho. nsatz. Qed.

Lemma unit_components (l1 l3 L : R) :
  0 < L -> L * L = l1 * l1 + l3 * l3 ->
  l1 * (1 / L) * (l1 * (1 / L)) + l3 * (1 / L) * (l3 * (1 / L)) = 1.
Proof.
  intros HL HLL.
  replace (l1 * (1 / L) * (l1 * (1 / L)) + l3 * (1 / L) * (l3 * (1 / L)))
    with ((l1 * l1 + l3 * l3) * ((1 / L) * (1 / L))) by ring.
  rewrite <- HLL. field. lra.
Qed.

Lemma sqrt_scaled (k n : R) : 0 <= n -> sqrt ((k * k) * n) = Rabs k * sqrt n.
Proof.
  intros Hn. rewrite sqrt_mult_alt by nra.
  replace (k * k) with (Rsqr k) by reflexivity. now rewrite sqrt_Rsqr_abs.
Qed.

(** For a camera whose x axis or look direction is horizontal, forward and
    right are orthogonal unit vectors and the length of a step is the
    magnitude of the MoveVector times 3·|dt|. *)
Lemma level_step_length (f : SourceFile) (m : XY) (dt : R) (w : World) :
  orientation (THREE.quaternion (camera w)) ->
  THREE.Vector3.length (horizontal (lookDirection (THREE.quaternion (camera w)))) <> 0 ->
  THREE.Vector3.length (horizontal (xAxis (THREE.quaternion (camera w)))) <> 0 ->
  THREE.Vector3.y (xAxis (THREE.quaternion (camera w))) = 0
  \/ THREE.Vector3.y (lookDirection (THREE.quaternion (camera w))) = 0 ->
  THREE.Vector3.length (moved w (useFrame f m dt w)) = 3 * Rabs dt * magnitude m.
Proof.
  set (q := THREE.quaternion (camera w)).
  intros Hq Hl Hr Hlevel.
  destruct (camera_axes q Hq) as (Horth & _).
  destruct (horizontal_length_facts _ Hl) as (HL & HLL).
  destruct (horizontal_length_facts _ Hr) as (HN & HNN).
  rewrite moved_useFrame. fold q.
  rewrite (right_components q Hr), (forward_components q Hl).
  set (L := THREE.Vector3.length (horizontal (lookDirection q))) in *.
  set (N := THREE.Vector3.length (horizontal (xAxis q))) in *.
  set (l1 := THREE.Vector3.x (lookDirection q)) in *.
  set (l2 := THREE.Vector3.y (lookDirection q)) in *.
  set (l3 := THREE.Vector3.z (lookDirection q)) in *.
  set (r1 := THREE.Vector3.x (xAxis q)) in *.
  set (r2 := THREE.Vector3.y (xAxis q)) in *.
  set (r3 := THREE.Vector3.z (xAxis q)) in *.
  assert (Hplane : l1 * r1 + l3 * r3 = 0).
  { assert (r2 * l2 = 0) by (destruct Hlevel as [-> | ->]; ring). lra. }
  assert (Hcross : l1 * (1 / L) * (r1 * (1 / N)) + l3 * (1 / L) * (r3 * (1 / N)) = 0).
  { replace (l1 * (1 / L) * (r1 * (1 / N)) + l3 * (1 / L) * (r3 * (1 / N)))
      with ((l1 * r1 + l3 * r3) * ((1 / L) * (1 / N))) by ring.
    rewrite Hplane. ring. }
  unfold THREE.Vector3.length, THREE.Vector3.add, THREE.Vector3.multiplyScalar.
  cbn [THREE.Vector3.x THREE.Vector3.y THREE.Vector3.z].
  rewrite (orthonormal_combination _ _ _ _ _ _
             (unit_components l1 l3 L HL HLL) (unit_components r1 r3 N HN HNN) Hcross).
  replace (y m * (3 * dt) * (y m * (3 * dt)) + x m * (3 * dt) * (x m * (3 * dt)))
    with (((3 * dt) * (3 * dt)) * (x m * x m + y m * y m)) by ring.
  rewrite sqrt_scaled by apply sum_squares_nonneg.
  rewrite Rabs_mult, (Rabs_pos_eq 3) by lra. reflexivity.
Qed.


Lemma level_is_level :
  orientation level /\
  THREE.Vector3.length (horizontal (lookDirection level)) <> 0 /\
  THREE.Vector3.length (horizontal (xAxis level)) <> 0 /\
  THREE.Vector3.y (xAxis level) = 0.
Proof.
  assert (Hx : xAxis level = THREE.Vector3.mk 1 0 0).
  { unfold xAxis, level, THREE.Vector3.applyQuaternion. simpl. apply Vector3_eq; ring. }
  assert (Hl : lookDirection level = THREE.Vector3.mk 0 0 (-1)) by apply lookDirection_identity.
  rewrite Hx, Hl. repeat split.
  - unfold orientation, level, THREE.Quaternion.lengthSq. simpl. ring.
  - intros H. apply length_zero_iff in H. simpl in H. lra.
  - intros H. apply length_zero_iff in H. simpl in H. lra.
Qed.


Lemma normalize_scale (v : THREE.Vector3.t) (k : R) :
  0 < k ->
  THREE.Vector3.normalize (THREE.Vector3.multiplyScalar v k) = THREE.Vector3.normalize v.
Proof.
  intros Hk.
  assert (Hlen := length_multiplyScalar v k (Rlt_le _ _ Hk)).
  destruct (Req_dec_T (THREE.Vector3.length v) 0) as [H0 | Hn].
  - rewrite (normalize_zero v H0).
    rewrite normalize_zero by (rewrite Hlen, H0; ring).
    apply length_zero_iff in H0. destruct H0 as (Hx & Hy & Hz). destruct v as [a b c].
    cbn [THREE.Vector3.x THREE.Vector3.y THREE.Vector3.z] in *. subst.
    unfold THREE.Vector3.multiplyScalar. simpl. apply Vector3_eq; ring.
  - rewrite !normalize_unfold, Hlen.
    assert (Hpos := length_nonneg v).
    rewrite !js_or_of_nonzero by nra.
    unfold THREE.Vector3.multiplyScalar.
    cbn [THREE.Vector3.x THREE.Vector3.y THREE.Vector3.z].
    apply Vector3_eq; field; lra.
Qed.

(** X7.  Pitch is ignored for movement.  For a camera turned about the
    vertical axis and then pitched about its own x axis by less than a
    quarter turn, forward and right, and so the displacement of a step, are
    those of the camera that is only turned about the vertical axis. *)
Theorem pitch_ignored (qyaw qpitch q : THREE.Quaternion.t) :
  THREE.Quaternion.x qyaw = 0 -> THREE.Quaternion.z qyaw = 0 ->
  THREE.Quaternion.y qpitch = 0 -> THREE.Quaternion.z qpitch = 0 ->
  0 < THREE.Vector3.y (yAxis qpitch) ->
  (forall v : THREE.Vector3.t,
     THREE.Vector3.applyQuaternion v q
     = THREE.Vector3.applyQuaternion (THREE.Vector3.applyQuaternion v qpitch) qyaw) ->
  forward q = forward qyaw /\ right q = right qyaw /\
  (forall (f : SourceFile) (m : XY) (dt : R) (w : World),
     moved (setQuaternion q w) (useFrame f m dt (setQuaternion q w))
     = moved (setQuaternion qyaw w) (useFrame f m dt (setQuaternion qyaw w))).
Proof.
  intros Hyx Hyz Hpy Hpz Hup Hq.
  assert (Hf : forward q = forward qyaw).
  { unfold forward.
    rewrite <- (normalize_scale (horizontal (lookDirection qyaw)) _ Hup).
    f_equal. unfold lookDirection. rewrite Hq.
    destruct qyaw as [a b c d], qpitch as [a' b' c' d'].
    cbn [THREE.Quaternion.x THREE.Quaternion.y THREE.Quaternion.z] in *. subst.
    unfold yAxis, horizontal, THREE.Vector3.setY, THREE.Vector3.multiplyScalar,
      THREE.Vector3.applyQuaternion. simpl. apply Vector3_eq; ring. }
  assert (Hr : right q = right qyaw).
  { unfold right. f_equal. unfold xAxis. rewrite Hq.
    destruct qyaw as [a b c d], qpitch as [a' b' c' d'].
    cbn [THREE.Quaternion.x THREE.Quaternion.y THREE.Quaternion.z] in *. subst.
    unfold horizontal, THREE.Vector3.setY, THREE.Vector3.applyQuaternion. simpl.
    apply Vector3_eq; ring. }
  split; [exact Hf |]. split; [exact Hr |].
  intros f m dt w. rewrite !moved_useFrame.
  cbn [camera setQuaternion THREE.quaternion]. now rewrite Hf, Hr.
Qed.

Lemma pitch_ignored_witness :
  forward (THREE.Quaternion.mk (12/25) (12/25) (-9/25) (16/25)) = forward turned.
Proof.
  apply (pitch_ignored turned (THREE.Quaternion.mk (3/5) 0 0 (4/5))
           (THREE.Quaternion.mk (12/25) (12/25) (-9/25) (16/25))).
  - reflexivity.
  - reflexivity.
  - reflexivity.
  - reflexivity.
  - unfold yAxis, THREE.Vector3.applyQuaternion. simpl. lra.
  - intros [a b c]. unfold turned, THREE.Vector3.applyQuaternion. simpl.
    apply Vector3_eq; field.
Defined.

(** ** The knob and the MoveVector *)

Lemma magnitude_scale (p d : XY) (k : R) :
  0 <= k -> x p = k * x d -> y p = k * y d -> magnitude p = k * magnitude d.
Proof.
  intros Hk Hx Hy. unfold magnitude. rewrite Hx, Hy.
  replace (k * x d * (k * x d) + k * y d * (k * y d))
    with ((k * k) * (x d * x d + y d * y d)) by ring.
  rewrite sqrt_scaled by apply sum_squares_nonneg.
  now rewrite Rabs_pos_eq.
Qed.

(** On a mounted element [updatePosition] places the knob at the displacement,
    brought back to the radius when it is beyond, and emits the knob position
    divided by the radius with the vertical axis inverted. *)
Lemma updatePosition_knob (f : SourceFile) (rect : DOMRect) (cx cy : R) (s : Joystick) :
  exists p : XY,
    updatePosition f (Some rect) cx cy s
    = (mkJoystick (isDragging s) p, [mkXY (x p / 40) (- y p / 40)]) /\
    magnitude p = Rmin 40 (magnitude (displacement rect cx cy)) /\
    (magnitude (displacement rect cx cy) <= 40 -> p = displacement rect cx cy).
Proof.
  set (d := displacement rect cx cy).
  assert (Hpos := magnitude_nonneg d).
  destruct (Rgt_dec (magnitude d) 40) as [Hfar | Hnear].
  - exists (mkXY (x d / magnitude d * 40) (y d / magnitude d * 40)).
    split; [| split].
    + now rewrite updatePosition_far.
    + rewrite Rmin_left by lra.
      rewrite (magnitude_scale _ d (40 / magnitude d)).
      * field. lra.
      * apply Rlt_le, Rdiv_lt_0_compat; lra.
      * cbn [x]. field. lra.
      * cbn [y]. field. lra.
    + intros H. lra.
  - apply Rnot_gt_le in Hnear. exists d. split; [| split].
    + now rewrite updatePosition_near.
    + now rewrite Rmin_right.
    + reflexivity.
Qed.

Lemma emitted_magnitude (p : XY) :
  magnitude (mkXY (x p / 40) (- y p / 40)) = magnitude p / 40.
Proof.
  rewrite (scaled_magnitude _ p (/ 40)); cbn [x y]; lra.
Qed.




(** ** The joystick over a whole session *)

Lemma updatePosition_consistent (f : SourceFile) (joystickRef : option DOMRect) (cx cy : R)
    (g : HorrorGame) (s : Joystick) :
  isDragging s = true ->
  position s = position (joystick g) ->
  consistent g ->
  consistent
    (mkHorrorGame (flashlightOn g)
       (onMove (snd (updatePosition f joystickRef cx cy s)) (moveDirection g))
       (fst (updatePosition f joystickRef cx cy s))).
Proof.
  intros Hdrag Hpos (Hmove & Hknob & Hidle).
  destruct joystickRef as [rect |].
  - destruct (updatePosition_knob f rect cx cy s) as (p & -> & Hp & _).
    cbn [fst snd onMove fold_left]. unfold consistent.
    cbn [moveDirection joystick position isDragging].
    split; [reflexivity |]. split.
    + rewrite Hp. apply Rmin_l.
    + rewrite Hdrag. discriminate.
  - rewrite updatePosition_unmounted. cbn [fst snd onMove fold_left].
    unfold consistent. cbn [moveDirection joystick].
    rewrite Hpos, Hdrag. split; [exact Hmove |]. split; [exact Hknob |]. discriminate.
Qed.

Lemma handleEvent_consistent (f : SourceFile) (joystickRef : option DOMRect) (e : Event)
    (g : HorrorGame) :
  consistent g -> consistent (handleEvent f joystickRef e g).
Proof.
  intros Hg. unfold handleEvent.
  destruct (dispatch f joystickRef e (joystick g)) as [s calls] eqn:Hd.
  assert (Hrelease :
    consistent (mkHorrorGame (flashlightOn g) (onMove [mkXY 0 0] (moveDirection g))
                  (mkJoystick false (mkXY 0 0)))).
  { unfold consistent. cbn [moveDirection joystick position isDragging onMove fold_left x y].
    split; [apply XY_eq; field |]. split; [rewrite magnitude_origin; lra | reflexivity]. }
  assert (Hpress : forall cx cy,
    dispatch f joystickRef e (joystick g)
    = updatePosition f joystickRef cx cy (mkJoystick true (position (joystick g))) ->
    consistent (mkHorrorGame (flashlightOn g) (onMove calls (moveDirection g)) s)).
  { intros cx cy H. rewrite H in Hd.
    replace calls with (snd (updatePosition f joystickRef cx cy
                               (mkJoystick true (position (joystick g)))))
      by now rewrite Hd.
    replace s with (fst (updatePosition f joystickRef cx cy
                           (mkJoystick true (position (joystick g)))))
      by now rewrite Hd.
    now apply updatePosition_consistent. }
  assert (Hmove : forall cx cy,
    dispatch f joystickRef e (joystick g)
    = (if isDragging (joystick g) then updatePosition f joystickRef cx cy (joystick g)
       else (joystick g, [])) ->
    consistent (mkHorrorGame (flashlightOn g) (onMove calls (moveDirection g)) s)).
  { intros cx cy H. rewrite H in Hd. destruct (isDragging (joystick g)) eqn:Hdrag.
    - replace calls with (snd (updatePosition f joystickRef cx cy (joystick g)))
        by now rewrite Hd.
      replace s with (fst (updatePosition f joystickRef cx cy (joystick g)))
        by now rewrite Hd.
      now apply updatePosition_consistent.
    - injection Hd as <- <-. cbn [onMove fold_left].
      destruct Hg as (H1 & H2 & H3). unfold consistent. cbn [moveDirection joystick].
      auto. }
  destruct e; simpl in Hd, Hpress, Hmove.
  - apply (Hpress clientX clientY). apply handleStart_eq.
  - apply (Hmove clientX clientY). apply handleMove_eq.
  - rewrite handleEnd_eq in Hd. injection Hd as <- <-. exact Hrelease.
  - apply (Hpress clientX clientY). apply handleStart_eq.
  - apply (Hmove clientX clientY). apply handleMove_eq.
  - rewrite handleEnd_eq in Hd. injection Hd as <- <-. exact Hrelease.
  - rewrite handleEnd_eq in Hd. injection Hd as <- <-. exact Hrelease.
Qed.

Lemma handleEvent_flashlightOn (f : SourceFile) (joystickRef : option DOMRect) (e : Event)
    (g : HorrorGame) :
  flashlightOn (handleEvent f joystickRef e g) = flashlightOn g.
Proof.
  unfold handleEvent. now destruct (dispatch f joystickRef e (joystick g)).
Qed.

Lemma handleEvents_consistent (f : SourceFile) (l : list (option DOMRect * Event)) :
  forall g : HorrorGame, consistent g -> consistent (handleEvents f l g).
Proof.
  induction l as [| [joystickRef e] l IH]; intros g Hg; simpl.
  - exact Hg.
  - apply IH. now apply handleEvent_consistent.
Qed.

Lemma initialGame_consistent : consistent initialGame.
Proof.
  unfold consistent, initialGame. cbn [moveDirection joystick position isDragging x y].
  split; [apply XY_eq; field |]. split; [rewrite magnitude_origin; lra | reflexivity].
Qed.



(** ** The look gesture of [HorrorGame.tsx] *)



(** ** The room *)

Lemma pillar_opposite (i : nat) :
  pillar (i + 4)
  = THREE.Vector3.mk (- THREE.Vector3.x (pillar i)) 0.5 (- THREE.Vector3.z (pillar i)).
Proof.
  unfold pillar. cbv zeta. cbn [THREE.Vector3.x THREE.Vector3.z].
  replace (INR (i + 4) / 8 * PI * 2) with (INR i / 8 * PI * 2 + PI)
    by (rewrite plus_INR; simpl; field).
  rewrite neg_cos, neg_sin. apply Vector3_eq; ring.
Qed.




(** ** [part_000] with nothing but the callback *)

(** X13.  In [part_000] the callback never turns the camera: over any run of
    frames the camera keeps the quaternion it had, the camera is at the
    player position after each frame, and the player ends where the same
    frames, all taken with that one quaternion, bring it. *)
Theorem part_000_camera_never_turns (l : list (XY * R)) (w : World) :
  THREE.quaternion (camera (steps part_000 l w)) = THREE.quaternion (camera w) /\
  (l <> [] ->
   THREE.position (camera (steps part_000 l w)) = playerPosition (steps part_000 l w)) /\
  playerPosition (steps part_000 l w)
  = playerPosition
      (frames part_000
         (map (fun p => mkFrame (fst p) (snd p) (THREE.quaternion (camera w))) l) w).
Proof.
  revert w. induction l as [| [m dt] l IH]; intros w.
  - repeat split. intros H. now elim H.
  - destruct (IH (useFrame part_000 m dt w)) as (Hq & Hc & Hp).
    cbn [steps map frames fst snd]. split; [| split].
    + rewrite Hq. reflexivity.
    + intros _. destruct l as [| p l]; [reflexivity | apply Hc; discriminate].
    + rewrite Hp.
      change (THREE.quaternion (camera (useFrame part_000 m dt w)))
        with (THREE.quaternion (camera w)).
      apply frames_position_ext.
      cbn [frame_moveDirection frame_delta frame_quaternion].
      rewrite turned_playerPosition, useFrame_playerPosition. reflexivity.
Qed.

Lemma part_000_camera_never_turns_witness :
  THREE.position
    (camera (steps part_000 [(mkXY 1 0, 1/60)]
               (initialWorld (THREE.mkCamera (THREE.Vector3.mk 0 1.6 10) rolled) None)))
  = playerPosition
      (steps part_000 [(mkXY 1 0, 1/60)]
         (initialWorld (THREE.mkCamera (THREE.Vector3.mk 0 1.6 10) rolled) None)).
Proof.
  apply (proj1 (proj2 (part_000_camera_never_turns [(mkXY 1 0, 1/60)]
           (initialWorld (THREE.mkCamera (THREE.Vector3.mk 0 1.6 10) rolled) None)))).
  discriminate.
Defined.
